(** * Orchestrator backend: permission gate, audited request dispatch

    A shallow embedding of
    [workspaces/orchestrator/plugins/orchestrator-backend/src/OrchestratorPlugin.ts]
    (the router service): [authorize], [filterAuthorizedWorkflowIds],
    [filterAuthorizedWorkflows], [manageDenyAuthorization],
    [auditLogRequestError], the eleven operation handlers registered on the
    OpenAPI backend and the router-level dispatch that wraps them.

    Asynchronous code is written in a small monad [Async]: a computation
    settles ([Fulfilled] or [Rejected]) and leaves the ordered list of the
    effects it performed on its collaborators (permission service, audit
    logger, workflow API, response object).  The collaborators themselves
    live outside the file and are taken as a record of oracles. *)

From Stdlib Require Import String Bool Arith ZArith Lia List.
Import ListNotations.
Local Open Scope string_scope.
Local Open Scope list_scope.

Set Implicit Arguments.
Set Warnings "-register-all".

(** ** JSON values and JavaScript truthiness *)

Inductive JsonValue : Type :=
| JNull
| JBool (b : bool)
| JNumber (z : Z)
| JString (s : string)
| JArray (items : list JsonValue)
| JObject (fields : list (string * JsonValue)).

(** [!!v] *)
Definition truthy (v : JsonValue) : bool :=
  match v with
  | JNull => false
  | JBool b => b
  | JNumber z => negb (Z.eqb z 0)
  | JString s => negb (String.eqb s EmptyString)
  | JArray _ => true
  | JObject _ => true
  end.

(** [!!s] for a value of type [string | undefined] *)
Definition truthy_string (s : option string) : bool :=
  match s with
  | Some s => negb (String.eqb s EmptyString)
  | None => false
  end.

(** [!!v] for a value of type [JsonValue | undefined] *)
Definition truthy_opt (v : option JsonValue) : bool :=
  match v with
  | Some v => truthy v
  | None => false
  end.

Definition JsonObject := list (string * JsonValue).

(** [obj[k]] *)
Fixpoint get_field (k : string) (obj : JsonObject) : option JsonValue :=
  match obj with
  | [] => None
  | (k', v) :: rest => if String.eqb k k' then Some v else get_field k rest
  end.

(** [k in obj] *)
Definition has_field (k : string) (obj : JsonObject) : bool :=
  match get_field k obj with Some _ => true | None => false end.

(** [obj[k] = v] *)
Fixpoint set_field (k : string) (v : JsonValue) (obj : JsonObject) : JsonObject :=
  match obj with
  | [] => [(k, v)]
  | (k', v') :: rest =>
      if String.eqb k k' then (k, v) :: rest else (k', v') :: set_field k v rest
  end.

(** [v.properties], [undefined] when [v] is not an object that has it *)
Definition property (k : string) (v : JsonValue) : option JsonValue :=
  match v with
  | JObject fields => get_field k fields
  | _ => None
  end.

(** [Object.keys(v)] for a schema's [properties], which is typed as an
    object *)
Definition Object_keys (v : JsonValue) : list string :=
  match v with
  | JObject fields => map fst fields
  | _ => []
  end.

(** [ids.includes(id)] *)
Definition includes (ids : list string) (id : string) : bool :=
  existsb (String.eqb id) ids.

(** ** Errors and settled promises *)

Inductive JsError : Type :=
| UnauthorizedError                    (* new UnauthorizedError() *)
| TypeError (message : string)         (* property read on undefined *)
| PlainError (message : string)        (* new Error(message) *)
| UpstreamError (name message : string). (* raised by a collaborator *)

Definition is_UnauthorizedError (e : JsError) : bool :=
  match e with UnauthorizedError => true | _ => false end.

Inductive Settled (A : Type) : Type :=
| Fulfilled (a : A)
| Rejected (e : JsError).

Arguments Fulfilled {A} a.
Arguments Rejected {A} e.

(** ** Permissions *)

(** The four permissions of the orchestrator common package that the router
    uses: two generic ones and two factories indexed by a workflow id. *)
Inductive BasicPermission : Type :=
| orchestratorWorkflowPermission
| orchestratorWorkflowSpecificPermission (workflowId : string)
| orchestratorWorkflowUsePermission
| orchestratorWorkflowUseSpecificPermission (workflowId : string).

Inductive AuthorizeResult : Type := ALLOW | DENY.

Definition AuthorizeResult_eqb (a b : AuthorizeResult) : bool :=
  match a, b with
  | ALLOW, ALLOW => true
  | DENY, DENY => true
  | _, _ => false
  end.

Record AuthorizePermissionRequest : Type :=
  { permission : BasicPermission }.

Record AuthorizePermissionResponse : Type :=
  { result : AuthorizeResult }.

Definition BackstageCredentials := string.

(** ** Requests and data transfer objects *)

Definition Filter := JsonValue.
Definition Pagination := JsonValue.

Record HttpRequest : Type :=
  { req_path : string;
    params_workflowId : string;          (* c.request.params.workflowId *)
    params_instanceId : string;          (* c.request.params.instanceId *)
    query_instanceId : option string;    (* c.request.query.instanceId *)
    req_headers : JsonValue;
    req_query : JsonValue;
    req_body : JsonValue;
    body_filters : option Filter }.      (* req.body.filters *)

Record WorkflowOverviewDTO : Type :=
  { workflowId : string;
    overview_fields : JsonObject }.

Record WorkflowOverviewListResultDTO : Type :=
  { overviews : option (list WorkflowOverviewDTO);
    paginationInfo : option JsonValue }.

Record ProcessInstanceDTO : Type :=
  { instance_id : string;
    processId : string;
    instance_fields : JsonObject }.

Record AssessedProcessInstanceDTO : Type :=
  { instance : ProcessInstanceDTO;
    assessedBy : option ProcessInstanceDTO }.

Record WorkflowInfo : Type :=
  { serviceUrl : option string;
    info_fields : JsonObject }.

Record WorkflowDefinition : Type :=
  { definition_id : string;
    dataInputSchema : option JsonValue }.

Record InputSchemaResponseDTO : Type :=
  { inputSchema : option JsonValue }.

(** ** Audit events *)

Inductive Stage : Type := stage_start | stage_authorization | stage_completion.
Inductive Status : Type := succeeded | failed.
Inductive Level : Type := level_debug | level_error.

Record ErrorSummary : Type :=
  { summary_name : string;
    summary_message : string }.

Record AuditResponse : Type :=
  { response_status : nat;
    response_errors : list ErrorSummary }.

Record AuditEvent : Type :=
  { eventName : string;
    stage : Stage;
    status : Status;
    level : Level;
    request : HttpRequest;
    response : option AuditResponse;
    errors : list JsError;
    message : string }.

Definition Stage_eqb (a b : Stage) : bool :=
  match a, b with
  | stage_start, stage_start => true
  | stage_authorization, stage_authorization => true
  | stage_completion, stage_completion => true
  | _, _ => false
  end.

Definition Status_eqb (a b : Status) : bool :=
  match a, b with
  | succeeded, succeeded => true
  | failed, failed => true
  | _, _ => false
  end.

(** ** Effects *)

(** Calls on the workflow API ([routerApi.v2]) and on the orchestrator
    service ([services.orchestratorService]). *)
Inductive DataCall : Type :=
| v2_getWorkflowsOverview (p : Pagination) (f : option Filter)
| v2_getWorkflowSourceById (workflowId : string)
| v2_executeWorkflow (body : JsonValue) (workflowId : string)
    (businessKey : option string)
| v2_retriggerInstance (workflowId instanceId : string)
| v2_getWorkflowOverviewById (workflowId : string)
| v2_getWorkflowStatuses
| v2_getWorkflowInputSchemaById (workflowId serviceUrl : string)
| v2_getInstances (p : Pagination) (f : option Filter) (ids : list string)
| v2_getWorkflowIds
| v2_getInstanceById (instanceId : string) (includeAssessment : option bool)
| v2_abortWorkflow (workflowId instanceId : string)
| orchestratorService_fetchWorkflowInfo (definitionId : string)
| orchestratorService_fetchWorkflowDefinition (definitionId : string)
| orchestratorService_fetchInstanceVariables (instanceId : string).

Inductive Body : Type :=
| body_json (v : JsonValue)
| body_overviews (w : WorkflowOverviewListResultDTO)
| body_text (s : string)
| body_instance (a : AssessedProcessInstanceDTO)
| body_inputSchema (schema : JsonValue) (data : option JsonObject)
| body_message (m : string)
| body_error (e : JsError).

Inductive Effect : Type :=
| Credentials (req : HttpRequest)          (* httpAuth.credentials(req) *)
| PermissionsAuthorize (requests : list AuthorizePermissionRequest)
    (credentials : BackstageCredentials)   (* permissionsSvc.authorize *)
| AuditLog (ev : AuditEvent)               (* auditLogger.auditLog(ev) *)
| LoggerError (endpoint : string) (error : JsError)
| Call (c : DataCall)
| Respond (status : nat) (body : Body)     (* res.status(n).json(body) *)
| Next (error : JsError).                  (* next(error) *)

Definition Trace := list Effect.

(** ** The [Async] monad: outcome and effects performed *)

Definition Async (A : Type) : Type := (Settled A * Trace)%type.

Definition ret {A} (a : A) : Async A := (Fulfilled a, []).

Definition throw {A} (e : JsError) : Async A := (Rejected e, []).

Definition bind {A B} (m : Async A) (k : A -> Async B) : Async B :=
  match m with
  | (Fulfilled a, t) => let (r, t') := k a in (r, t ++ t')
  | (Rejected e, t) => (Rejected e, t)
  end.

(** [try { m } catch (error) { h error }], also [m.catch(h)] *)
Definition try_catch {A} (m : Async A) (h : JsError -> Async A) : Async A :=
  match m with
  | (Fulfilled a, t) => (Fulfilled a, t)
  | (Rejected e, t) => let (r, t') := h e in (r, t ++ t')
  end.

Definition perform (e : Effect) : Async unit := (Fulfilled tt, [e]).

(** A call on a collaborator: the effect is recorded, the collaborator's
    answer is the outcome. *)
Definition await {A} (e : Effect) (answer : Settled A) : Async A :=
  (answer, [e]).

Definition outcome {A} (m : Async A) : Settled A := fst m.
Definition effects {A} (m : Async A) : Trace := snd m.

Declare Scope async_scope.
Delimit Scope async_scope with async.
Notation "x <- m ;; k" := (bind m (fun x => k))
  (at level 61, m at next level, right associativity) : async_scope.
Notation "m ;; k" := (bind m (fun _ => k))
  (at level 61, right associativity) : async_scope.
Local Open Scope async_scope.

(** [Promise.all(ps)]: every promise of [ps] has already been created, so
    all their effects happen; the result is the list of values or a
    rejection.  Which rejected promise settles first is a matter of
    scheduling; the model takes the first in list order. *)
Fixpoint all_settled {A} (rs : list (Settled A)) : Settled (list A) :=
  match rs with
  | [] => Fulfilled []
  | Rejected e :: _ => Rejected e
  | Fulfilled a :: rest =>
      match all_settled rest with
      | Fulfilled l => Fulfilled (a :: l)
      | Rejected e => Rejected e
      end
  end.

Definition Promise_all {A} (ps : list (Async A)) : Async (list A) :=
  (all_settled (map fst ps), List.concat (map snd ps)).

(** [xs.find(p)] where reading a property in [p] may throw *)
Fixpoint Array_find {A} (p : A -> Settled bool) (xs : list A)
  : Settled (option A) :=
  match xs with
  | [] => Fulfilled None
  | x :: rest =>
      match p x with
      | Rejected e => Rejected e
      | Fulfilled true => Fulfilled (Some x)
      | Fulfilled false => Array_find p rest
      end
  end.

(** [xs.filter((x, idx) => p x idx)], indices counted from [idx] *)
Fixpoint Array_filter_from {A} (p : A -> nat -> Settled bool) (idx : nat)
  (xs : list A) : Settled (list A) :=
  match xs with
  | [] => Fulfilled []
  | x :: rest =>
      match p x idx with
      | Rejected e => Rejected e
      | Fulfilled b =>
          match Array_filter_from p (S idx) rest with
          | Rejected e => Rejected e
          | Fulfilled l => Fulfilled (if b then x :: l else l)
          end
      end
  end.

Definition Array_filter {A} (p : A -> nat -> Settled bool) (xs : list A)
  : Settled (list A) :=
  Array_filter_from p 0 xs.

(** [d.result === AuthorizeResult.ALLOW] where [d] may be [undefined] *)
Definition result_is_ALLOW (d : option AuthorizePermissionResponse)
  : Settled bool :=
  match d with
  | Some d => Fulfilled (AuthorizeResult_eqb (result d) ALLOW)
  | None =>
      Rejected
        (TypeError "Cannot read properties of undefined (reading 'result')")
  end.

(** ** Collaborators *)

(** Everything the router is handed or imports: the permission service, the
    auth service, the workflow API, the orchestrator service, the input
    schema service, the error middleware, and the constants of sibling
    modules.  Each remote call is an oracle from its arguments to a settled
    promise. *)
Record Collaborators : Type :=
  { credentials_of : HttpRequest -> Settled BackstageCredentials;
    permissionsSvc :
      list AuthorizePermissionRequest -> BackstageCredentials ->
      Settled (list AuthorizePermissionResponse);
    getWorkflowsOverview :
      Pagination -> option Filter -> Settled WorkflowOverviewListResultDTO;
    getWorkflowSourceById : string -> Settled string;
    executeWorkflow : JsonValue -> string -> option string -> Settled JsonValue;
    retriggerInstance : string -> string -> Settled JsonValue;
    getWorkflowOverviewById : string -> Settled JsonValue;
    getWorkflowStatuses : Settled JsonValue;
    getWorkflowInputSchemaById :
      string -> string -> Settled (option InputSchemaResponseDTO);
    getInstances :
      Pagination -> option Filter -> list string -> Settled JsonValue;
    getWorkflowIds : Settled (list string);
    getInstanceById :
      string -> option bool -> Settled AssessedProcessInstanceDTO;
    abortWorkflow : string -> string -> Settled JsonValue;
    extractQueryParam : HttpRequest -> string -> option string;
    fetchWorkflowInfo : string -> Settled (option WorkflowInfo);
    fetchWorkflowDefinition : string -> Settled (option WorkflowDefinition);
    fetchInstanceVariables : string -> Settled (option JsonObject);
    extractWorkflowData : JsonObject -> option JsonObject;
    buildPagination : HttpRequest -> Pagination;
    error_status : JsError -> nat;         (* middleware.error() *)
    error_name : JsError -> string;        (* error.name *)
    error_message : JsError -> string;     (* error.message *)
    QUERY_PARAM_BUSINESS_KEY : string;
    QUERY_PARAM_INCLUDE_ASSESSMENT : string;
    INTERNAL_SERVER_ERROR_MESSAGE : string }.

(** ** The Permission Gate *)

Section PermissionGate.

Variable E : Collaborators.

(** [httpAuth.credentials(request)] *)
Definition credentials (req : HttpRequest) : Async BackstageCredentials :=
  await (Credentials req) (credentials_of E req).

(** [permissionsSvc.authorize(requests, { credentials })] *)
Definition permissionsSvc_authorize
  (requests : list AuthorizePermissionRequest)
  (creds : BackstageCredentials)
  : Async (list AuthorizePermissionResponse) :=
  await (PermissionsAuthorize requests creds)
        (permissionsSvc E requests creds).

Definition authorize (req : HttpRequest)
  (anyOfPermissions : list BasicPermission)
  : Async AuthorizePermissionResponse :=
  creds <- credentials req ;;
  decisionResponses <-
    Promise_all
      (map (fun p => permissionsSvc_authorize [{| permission := p |}] creds)
           anyOfPermissions) ;;
  let decisions := map (fun d => nth_error d 0) decisionResponses in
  allow <- (Array_find result_is_ALLOW decisions, []) ;;
  match allow with
  | Some (Some d) => ret d
  | _ => ret {| result := DENY |}
  end.

Definition filterAuthorizedWorkflowIds (req : HttpRequest)
  (workflowIds : list string) : Async (list string) :=
  creds <- credentials req ;;
  genericWorkflowPermissionDecision <-
    permissionsSvc_authorize
      [{| permission := orchestratorWorkflowPermission |}] creds ;;
  isAllow <-
    (result_is_ALLOW (nth_error genericWorkflowPermissionDecision 0), []) ;;
  if (isAllow : bool) then
    (* The user can see all workflows *)
    ret workflowIds
  else
    let specificWorkflowRequests :=
      map (fun workflowId =>
             {| permission :=
                 orchestratorWorkflowSpecificPermission workflowId |})
          workflowIds in
    decisions <- permissionsSvc_authorize specificWorkflowRequests creds ;;
    (Array_filter
       (fun _ idx => result_is_ALLOW (nth_error decisions idx))
       workflowIds, []).

Definition filterAuthorizedWorkflows (req : HttpRequest)
  (workflows : WorkflowOverviewListResultDTO)
  : Async WorkflowOverviewListResultDTO :=
  match overviews workflows with
  | None => ret workflows
  | Some ovs =>
      authorizedWorkflowIds <-
        filterAuthorizedWorkflowIds req (map workflowId ovs) ;;
      let filtered :=
        {| overviews :=
             Some (filter (fun w => includes authorizedWorkflowIds
                                             (workflowId w)) ovs);
           paginationInfo := paginationInfo workflows |} in
      ret filtered
  end.

End PermissionGate.

(** ** Internal routes: audit helpers and operation handlers *)

Section InternalRoutes.

Variable E : Collaborators.

Local Open Scope string_scope.

Definition auditLogger_auditLog (ev : AuditEvent) : Async unit :=
  perform (AuditLog ev).

(** [res.status(status).json(body)]; sending is taken to succeed. *)
Definition res_json (status : nat) (body : Body) : Async unit :=
  perform (Respond status body).

(** [next(error)]: the error reaches [middleware.error()], registered
    last on the router, which answers with the status of the error. *)
Definition next_error (error : JsError) : Async unit :=
  perform (Next error) ;;
  res_json (error_status E error) (body_error error).

(** [a || b] on strings *)
Definition or_else (a b : string) : string :=
  if String.eqb a EmptyString then b else a.

(** The [stage: 'start'] event every handler opens with. *)
Definition received (name endpoint : string) (req : HttpRequest)
  : AuditEvent :=
  {| eventName := name;
     stage := stage_start;
     status := succeeded;
     level := level_debug;
     request := req;
     response := None;
     errors := [];
     message := "Received request to '" ++ endpoint ++ "' endpoint" |}.

Definition manageDenyAuthorization {A} (endpointName endpoint : string)
  (req : HttpRequest) : Async A :=
  let error := UnauthorizedError in
  auditLogger_auditLog
    {| eventName := endpointName ++ "EndpointHit";
       stage := stage_authorization;
       status := failed;
       level := level_error;
       request := req;
       response :=
         Some {| response_status := 403;
                 response_errors :=
                   [{| summary_name := error_name E error;
                       summary_message := error_message E error |}] |};
       errors := [error];
       message := "Not authorize to request the " ++ endpoint ++ " endpoint" |} ;;
  throw error.

Definition auditLogRequestError (error : JsError)
  (endpointName endpoint : string) (req : HttpRequest) : Async unit :=
  perform (LoggerError endpoint error) ;;
  auditLogger_auditLog
    {| eventName := endpointName ++ "EndpointHit";
       stage := stage_completion;
       status := failed;
       level := level_error;
       request := req;
       response :=
         Some {| response_status := 500;
                 response_errors :=
                   [{| summary_name := error_name E error;
                       summary_message :=
                         or_else (error_message E error)
                                 (INTERNAL_SERVER_ERROR_MESSAGE E) |}] |};
       errors := [error];
       message :=
         "Error occured while requesting the '" ++ endpoint ++ "' endpoint" |}.

(** [if (decision.result === AuthorizeResult.DENY) manageDenyAuthorization(..)] *)
Definition deny_guard (decision : AuthorizePermissionResponse)
  (endpointName endpoint : string) (req : HttpRequest) : Async unit :=
  if AuthorizeResult_eqb (result decision) DENY
  then manageDenyAuthorization endpointName endpoint req
  else ret tt.

Definition getRequestFilters (req : HttpRequest) : option Filter :=
  match body_filters req with
  | Some f => if truthy f then Some f else None
  | None => None
  end.

(** [routerApi.v2.*] and [services.orchestratorService.*] *)
Definition api_getWorkflowsOverview p f :=
  await (Call (v2_getWorkflowsOverview p f)) (getWorkflowsOverview E p f).
Definition api_getWorkflowSourceById wid :=
  await (Call (v2_getWorkflowSourceById wid)) (getWorkflowSourceById E wid).
Definition api_executeWorkflow body wid key :=
  await (Call (v2_executeWorkflow body wid key))
        (executeWorkflow E body wid key).
Definition api_retriggerInstance wid iid :=
  await (Call (v2_retriggerInstance wid iid)) (retriggerInstance E wid iid).
Definition api_getWorkflowOverviewById wid :=
  await (Call (v2_getWorkflowOverviewById wid))
        (getWorkflowOverviewById E wid).
Definition api_getWorkflowStatuses :=
  await (Call v2_getWorkflowStatuses) (getWorkflowStatuses E).
Definition api_getWorkflowInputSchemaById wid url :=
  await (Call (v2_getWorkflowInputSchemaById wid url))
        (getWorkflowInputSchemaById E wid url).
Definition api_getInstances p f ids :=
  await (Call (v2_getInstances p f ids)) (getInstances E p f ids).
Definition api_getWorkflowIds :=
  await (Call v2_getWorkflowIds) (getWorkflowIds E).
Definition api_getInstanceById iid incl :=
  await (Call (v2_getInstanceById iid incl)) (getInstanceById E iid incl).
Definition api_abortWorkflow wid iid :=
  await (Call (v2_abortWorkflow wid iid)) (abortWorkflow E wid iid).
Definition svc_fetchWorkflowInfo wid :=
  await (Call (orchestratorService_fetchWorkflowInfo wid))
        (fetchWorkflowInfo E wid).
Definition svc_fetchWorkflowDefinition wid :=
  await (Call (orchestratorService_fetchWorkflowDefinition wid))
        (fetchWorkflowDefinition E wid).
Definition svc_fetchInstanceVariables iid :=
  await (Call (orchestratorService_fetchInstanceVariables iid))
        (fetchInstanceVariables E iid).

Definition handle_getWorkflowsOverview (req : HttpRequest) : Async unit :=
  let endpointName := "getWorkflowsOverview" in
  let endpoint := "/v2/workflows/overview" in
  auditLogger_auditLog (received "getWorkflowsOverview" endpoint req) ;;
  try_catch
    (result <- api_getWorkflowsOverview (buildPagination E req)
                                        (getRequestFilters req) ;;
     workflows <- filterAuthorizedWorkflows E req result ;;
     res_json 200 (body_overviews workflows))
    (fun error =>
       auditLogRequestError error endpointName endpoint req ;;
       next_error error).

Definition handle_getWorkflowSourceById (req : HttpRequest) : Async unit :=
  let workflowId := params_workflowId req in
  let endpointName := "getWorkflowSourceById" in
  let endpoint := "/v2/workflows/" ++ workflowId ++ "/source" in
  auditLogger_auditLog (received endpointName endpoint req) ;;
  decision <-
    authorize E req
      [orchestratorWorkflowPermission;
       orchestratorWorkflowSpecificPermission workflowId] ;;
  deny_guard decision endpointName endpoint req ;;
  try_catch
    (result <- api_getWorkflowSourceById workflowId ;;
     res_json 200 (body_text result))
    (fun error =>
       auditLogRequestError error endpointName endpoint req ;;
       next_error error).

Definition handle_executeWorkflow (req : HttpRequest) : Async unit :=
  let workflowId := params_workflowId req in
  let endpointName := "executeWorkflow" in
  let endpoint := "/v2/workflows/" ++ workflowId ++ "/execute" in
  auditLogger_auditLog (received endpointName endpoint req) ;;
  decision <-
    authorize E req
      [orchestratorWorkflowUsePermission;
       orchestratorWorkflowUseSpecificPermission workflowId] ;;
  deny_guard decision endpointName endpoint req ;;
  let businessKey := extractQueryParam E req (QUERY_PARAM_BUSINESS_KEY E) in
  let executeWorkflowRequestDTO := req_body req in
  try_catch
    (result <-
       api_executeWorkflow executeWorkflowRequestDTO workflowId businessKey ;;
     res_json 200 (body_json result))
    (fun error =>
       auditLogRequestError error endpointName endpoint req ;;
       next_error error).

Definition handle_retriggerInstance (req : HttpRequest) : Async unit :=
  let workflowId := params_workflowId req in
  let instanceId := params_instanceId req in
  let endpointName := "retriggerInstance" in
  let endpoint :=
    "/v2/workflows/" ++ workflowId ++ "/" ++ instanceId ++ "/retrigger" in
  auditLogger_auditLog (received endpointName endpoint req) ;;
  decision <-
    authorize E req
      [orchestratorWorkflowUsePermission;
       orchestratorWorkflowUseSpecificPermission workflowId] ;;
  deny_guard decision endpointName endpoint req ;;
  try_catch
    (result <- api_retriggerInstance workflowId instanceId ;;
     res_json 200 (body_json result))
    (fun error =>
       auditLogRequestError error endpointName endpoint req ;;
       next_error error).

Definition handle_getWorkflowOverviewById (req : HttpRequest) : Async unit :=
  let workflowId := params_workflowId req in
  let endpointName := "getWorkflowOverviewById" in
  let endpoint := "/v2/workflows/" ++ workflowId ++ "/overview" in
  auditLogger_auditLog (received endpointName endpoint req) ;;
  decision <-
    authorize E req
      [orchestratorWorkflowPermission;
       orchestratorWorkflowSpecificPermission workflowId] ;;
  deny_guard decision endpointName endpoint req ;;
  try_catch
    (result <- api_getWorkflowOverviewById workflowId ;;
     res_json 200 (body_json result))
    (fun error =>
       auditLogRequestError error endpointName endpoint req ;;
       next_error error).

Definition handle_getWorkflowStatuses (req : HttpRequest) : Async unit :=
  let endpointName := "getWorkflowStatuses" in
  let endpoint := "/v2/workflows/instances/statuses" in
  auditLogger_auditLog (received endpointName endpoint req) ;;
  (* Anyone is authorized to call this endpoint *)
  try_catch
    (result <- api_getWorkflowStatuses ;;
     res_json 200 (body_json result))
    (fun error =>
       auditLogRequestError error endpointName endpoint req ;;
       next_error error).

(** The object built by the [reduce] over the schema's property names:
    the fields of [workflowData] that the schema declares and whose value
    is truthy. *)
Definition pick_inputData (inputSchemaProps : JsonValue)
  (workflowData : JsonObject) : JsonObject :=
  fold_left
    (fun result k =>
       match get_field k workflowData with
       | Some v => if truthy v then set_field k v result else result
       | None => result
       end)
    (filter (fun k => has_field k workflowData)
            (Object_keys inputSchemaProps))
    [].

Definition handle_getWorkflowInputSchemaById (req : HttpRequest)
  : Async unit :=
  let workflowId := params_workflowId req in
  let instanceId := query_instanceId req in
  let endpointName := "getWorkflowInputSchemaById" in
  let endpoint := "/v2/workflows/" ++ workflowId ++ "/inputSchema" in
  try_catch
    (auditLogger_auditLog (received endpointName endpoint req) ;;
     decision <-
       authorize E req
         [orchestratorWorkflowPermission;
          orchestratorWorkflowSpecificPermission workflowId] ;;
     deny_guard decision endpointName endpoint req ;;
     workflowDefinition <- svc_fetchWorkflowInfo workflowId ;;
     match workflowDefinition with
     | None =>
         throw (PlainError ("Failed to fetch workflow info for workflow "
                            ++ workflowId))
     | Some workflowDefinition =>
         if negb (truthy_string (serviceUrl workflowDefinition)) then
           throw (PlainError ("Service URL is not defined for workflow "
                              ++ workflowId))
         else
           let serviceUrl :=
             match serviceUrl workflowDefinition with
             | Some u => u
             | None => EmptyString
             end in
           definition <- svc_fetchWorkflowDefinition workflowId ;;
           match definition with
           | None =>
               throw (PlainError
                 "Failed to fetch workflow definition for workflow ${workflowId}")
           | Some definition =>
               if negb (truthy_opt (dataInputSchema definition)) then
                 res_json 200 (body_json (JObject []))
               else
                 instanceVariables <-
                   match instanceId with
                   | Some iid =>
                       if truthy_string instanceId
                       then svc_fetchInstanceVariables iid
                       else ret None
                   | None => ret None
                   end ;;
                 let workflowData :=
                   match instanceVariables with
                   | Some vars => extractWorkflowData E vars
                   | None => None
                   end in
                 workflowInfo <-
                   try_catch
                     (api_getWorkflowInputSchemaById workflowId serviceUrl)
                     (fun error =>
                        auditLogRequestError error endpointName endpoint req ;;
                        res_json 500
                          (body_message
                             (or_else (error_message E error)
                                      (INTERNAL_SERVER_ERROR_MESSAGE E))) ;;
                        ret None) ;;
                 match workflowInfo with
                 | None => res_json 200 (body_json (JObject []))
                 | Some workflowInfo =>
                     match inputSchema workflowInfo with
                     | None => res_json 200 (body_json (JObject []))
                     | Some schema =>
                         if negb (truthy schema) then
                           res_json 200 (body_json (JObject []))
                         else
                           match property "properties" schema with
                           | None => res_json 200 (body_json (JObject []))
                           | Some inputSchemaProps =>
                               if negb (truthy inputSchemaProps) then
                                 res_json 200 (body_json (JObject []))
                               else
                                 let inputData :=
                                   match workflowData with
                                   | Some workflowData =>
                                       Some (pick_inputData inputSchemaProps
                                                            workflowData)
                                   | None => None
                                   end in
                                 res_json 200
                                   (body_inputSchema schema inputData)
                           end
                     end
                 end
           end
     end)
    (fun err =>
       auditLogRequestError err endpointName endpoint req ;;
       next_error err).

Definition handle_getWorkflowInstances (req : HttpRequest) : Async unit :=
  let endpointName := "getWorkflowInstances" in
  let workflowId := params_workflowId req in
  let endpoint := "/v2/workflows/" ++ workflowId ++ "/instances" in
  auditLogger_auditLog (received endpointName endpoint req) ;;
  decision <-
    authorize E req
      [orchestratorWorkflowPermission;
       orchestratorWorkflowSpecificPermission workflowId] ;;
  deny_guard decision endpointName endpoint req ;;
  try_catch
    (result <- api_getInstances (buildPagination E req)
                                (getRequestFilters req) [workflowId] ;;
     res_json 200 (body_json result))
    (fun error =>
       auditLogRequestError error endpointName endpoint req ;;
       next_error error).

Definition handle_getInstances (req : HttpRequest) : Async unit :=
  let endpointName := "getInstances" in
  let endpoint := "/v2/workflows/instances" in
  auditLogger_auditLog (received endpointName endpoint req) ;;
  try_catch
    ((* Once we assign user to the instance in the future, we can rework
        this filtering *)
     allWorkflowIds <- api_getWorkflowIds ;;
     authorizedWorkflowIds <-
       filterAuthorizedWorkflowIds E req allWorkflowIds ;;
     result <- api_getInstances (buildPagination E req)
                                (getRequestFilters req)
                                authorizedWorkflowIds ;;
     res_json 200 (body_json result))
    (fun error =>
       auditLogRequestError error endpointName endpoint req ;;
       next_error error).

Definition handle_getInstanceById (req : HttpRequest) : Async unit :=
  let instanceId := params_instanceId req in
  let endpointName := "getInstanceById" in
  let endpoint := "/v2/workflows/instances/" ++ instanceId in
  auditLogger_auditLog (received endpointName endpoint req) ;;
  let includeAssessment :=
    extractQueryParam E req (QUERY_PARAM_INCLUDE_ASSESSMENT E) in
  try_catch
    (assessedInstance <-
       api_getInstanceById instanceId
                           (Some (truthy_string includeAssessment)) ;;
     let workflowId := processId (instance assessedInstance) in
     decision <-
       authorize E req
         [orchestratorWorkflowPermission;
          orchestratorWorkflowSpecificPermission workflowId] ;;
     deny_guard decision endpointName endpoint req ;;
     res_json 200 (body_instance assessedInstance))
    (fun error =>
       auditLogRequestError error endpointName endpoint req ;;
       next_error error).

Definition handle_abortWorkflow (req : HttpRequest) : Async unit :=
  let instanceId := params_instanceId req in
  let endpointName := "abortWorkflow" in
  let endpoint := "/v2/workflows/instances/" ++ instanceId ++ "/abort" in
  auditLogger_auditLog (received endpointName endpoint req) ;;
  try_catch
    (assessedInstance <- api_getInstanceById instanceId None ;;
     let workflowId := processId (instance assessedInstance) in
     decision <-
       authorize E req
         [orchestratorWorkflowUsePermission;
          orchestratorWorkflowUseSpecificPermission workflowId] ;;
     deny_guard decision endpointName endpoint req ;;
     result <- api_abortWorkflow workflowId instanceId ;;
     res_json 200 (body_json result))
    (fun error =>
       auditLogRequestError error endpointName endpoint req ;;
       next_error error).

End InternalRoutes.

(** ** Dispatch *)

(** The operations registered on the OpenAPI backend by
    [setupInternalRoutes]. *)
Inductive Operation : Type :=
| getWorkflowsOverview_op
| getWorkflowSourceById_op
| executeWorkflow_op
| retriggerInstance_op
| getWorkflowOverviewById_op
| getWorkflowStatuses_op
| getWorkflowInputSchemaById_op
| getWorkflowInstances_op
| getInstances_op
| getInstanceById_op
| abortWorkflow_op.

Definition all_operations : list Operation :=
  [getWorkflowsOverview_op; getWorkflowSourceById_op; executeWorkflow_op;
   retriggerInstance_op; getWorkflowOverviewById_op; getWorkflowStatuses_op;
   getWorkflowInputSchemaById_op; getWorkflowInstances_op; getInstances_op;
   getInstanceById_op; abortWorkflow_op].

Definition Operation_eqb (a b : Operation) : bool :=
  match a, b with
  | getWorkflowsOverview_op, getWorkflowsOverview_op
  | getWorkflowSourceById_op, getWorkflowSourceById_op
  | executeWorkflow_op, executeWorkflow_op
  | retriggerInstance_op, retriggerInstance_op
  | getWorkflowOverviewById_op, getWorkflowOverviewById_op
  | getWorkflowStatuses_op, getWorkflowStatuses_op
  | getWorkflowInputSchemaById_op, getWorkflowInputSchemaById_op
  | getWorkflowInstances_op, getWorkflowInstances_op
  | getInstances_op, getInstances_op
  | getInstanceById_op, getInstanceById_op
  | abortWorkflow_op, abortWorkflow_op => true
  | _, _ => false
  end.

Section Dispatch.

Variable E : Collaborators.

Local Open Scope string_scope.

(** The handler table of [openApiBackend.register]. *)
Definition handler (op : Operation) : HttpRequest -> Async unit :=
  match op with
  | getWorkflowsOverview_op => handle_getWorkflowsOverview E
  | getWorkflowSourceById_op => handle_getWorkflowSourceById E
  | executeWorkflow_op => handle_executeWorkflow E
  | retriggerInstance_op => handle_retriggerInstance E
  | getWorkflowOverviewById_op => handle_getWorkflowOverviewById E
  | getWorkflowStatuses_op => handle_getWorkflowStatuses E
  | getWorkflowInputSchemaById_op => handle_getWorkflowInputSchemaById E
  | getWorkflowInstances_op => handle_getWorkflowInstances E
  | getInstances_op => handle_getInstances E
  | getInstanceById_op => handle_getInstanceById E
  | abortWorkflow_op => handle_abortWorkflow E
  end.

(** The router middleware of [createBackendRouter]:
    [openApiBackend.handleRequest(..).catch(error => ..)]. *)
Definition handleRequest (op : Operation) (req : HttpRequest) : Async unit :=
  try_catch
    (handler op req)
    (fun error =>
       auditLogger_auditLog
         {| eventName := "genericErrorHandler";
            stage := stage_completion;
            status := failed;
            level := level_error;
            request := req;
            response := None;
            errors := [error];
            message :=
              "Exception thrown during processing request " ++ req_path req
              ++ " , " ++ or_else (error_message E error) (error_name E error) |} ;;
       next_error E error).

End Dispatch.

(** ** Observations on traces *)

Definition is_permission_evaluation (e : Effect) : bool :=
  match e with PermissionsAuthorize _ _ => true | _ => false end.

Definition is_data_call (e : Effect) : bool :=
  match e with Call _ => true | _ => false end.

(** The engine operations that change a workflow instance. *)
Definition is_mutation (e : Effect) : bool :=
  match e with
  | Call (v2_executeWorkflow _ _ _) => true
  | Call (v2_retriggerInstance _ _) => true
  | Call (v2_abortWorkflow _ _) => true
  | _ => false
  end.

Definition is_abort (e : Effect) : bool :=
  match e with Call (v2_abortWorkflow _ _) => true | _ => false end.

Definition is_fetchInstanceVariables (e : Effect) : bool :=
  match e with
  | Call (orchestratorService_fetchInstanceVariables _) => true
  | _ => false
  end.

(** The reads a handler makes to find out what to authorize: the instance
    whose owning workflow is checked, the overview list and the workflow
    ids that are then filtered. *)
Definition is_resolving_read (e : Effect) : bool :=
  match e with
  | Call (v2_getInstanceById _ _) => true
  | Call (v2_getWorkflowsOverview _ _) => true
  | Call v2_getWorkflowIds => true
  | _ => false
  end.

(** A response of the handler that carries workflow data; the error
    middleware's answer and an overview result without [overviews] carry
    none. *)
Definition returns_workflow_data (e : Effect) : bool :=
  match e with
  | Respond _ (body_error _) => false
  | Respond _ (body_overviews w) =>
      match overviews w with Some _ => true | None => false end
  | Respond _ _ => true
  | _ => false
  end.

Definition is_next (e : Effect) : bool :=
  match e with Next _ => true | _ => false end.

Definition is_response (e : Effect) : bool :=
  match e with Respond _ _ => true | _ => false end.

Definition is_error_response (e : Effect) : bool :=
  match e with Respond status _ => Nat.leb 400 status | _ => false end.

Definition is_audit (e : Effect) : bool :=
  match e with AuditLog _ => true | _ => false end.

Definition audit_with (p : AuditEvent -> bool) (e : Effect) : bool :=
  match e with AuditLog ev => p ev | _ => false end.

Definition is_start (e : Effect) : bool :=
  audit_with (fun ev => Stage_eqb (stage ev) stage_start) e.

Definition is_completion (e : Effect) : bool :=
  audit_with (fun ev => Stage_eqb (stage ev) stage_completion) e.

(** A terminal event as the specification has it: one that closes the
    request, with either status. *)
Definition is_terminal (e : Effect) : bool :=
  audit_with (fun ev => negb (Stage_eqb (stage ev) stage_start)) e.

Definition is_failed (e : Effect) : bool :=
  audit_with (fun ev => Status_eqb (status ev) failed) e.

Definition is_failed_completion (e : Effect) : bool :=
  audit_with (fun ev => Stage_eqb (stage ev) stage_completion
                        && Status_eqb (status ev) failed) e.

Definition only_UnauthorizedError (errs : list JsError) : bool :=
  match errs with
  | [UnauthorizedError] => true
  | _ => false
  end.

(** [stage: 'completion', status: 'failed', errors: [UnauthorizedError]] *)
Definition is_denial_completion (e : Effect) : bool :=
  audit_with (fun ev => Stage_eqb (stage ev) stage_completion
                        && Status_eqb (status ev) failed
                        && only_UnauthorizedError (errors ev)) e.

(** [stage: 'authorization', status: 'failed', errors: [UnauthorizedError]],
    recording a 403 *)
Definition is_denial_authorization (e : Effect) : bool :=
  audit_with (fun ev => Stage_eqb (stage ev) stage_authorization
                        && Status_eqb (status ev) failed
                        && only_UnauthorizedError (errors ev)
                        && match response ev with
                           | Some r => Nat.eqb (response_status r) 403
                           | None => false
                           end) e.

Definition count (p : Effect -> bool) (t : Trace) : nat :=
  length (filter p t).

(** Every effect of [t] that satisfies [after] comes later in [t] than some
    effect that satisfies [before] ([seen]: one was met already). *)
Fixpoint preceded (before after : Effect -> bool) (seen : bool) (t : Trace)
  : bool :=
  match t with
  | [] => true
  | e :: t' =>
      (negb (after e) || seen)
      && preceded before after (seen || before e) t'
  end.

Definition starts_with (p : Effect -> bool) (t : Trace) : bool :=
  match t with
  | e :: _ => p e
  | [] => false
  end.

(** The statuses the client is answered with, in order. *)
Fixpoint response_statuses (t : Trace) : list nat :=
  match t with
  | [] => []
  | Respond status _ :: t' => status :: response_statuses t'
  | _ :: t' => response_statuses t'
  end.

(** Authorization first, as the specification words it: a permission
    evaluation precedes every data access and every response with data. *)
Definition authorization_first (t : Trace) : bool :=
  preceded is_permission_evaluation
           (fun e => is_data_call e || returns_workflow_data e) false t.

(** Authorization first, up to the reads that resolve what to authorize. *)
Definition authorization_before_use (t : Trace) : bool :=
  preceded is_permission_evaluation
           (fun e => (is_data_call e && negb (is_resolving_read e))
                     || returns_workflow_data e) false t.

(** The operations whose handler reads before it can authorize. *)
Definition resolves_before_authorizing (op : Operation) : bool :=
  match op with
  | getWorkflowsOverview_op | getInstances_op
  | getInstanceById_op | abortWorkflow_op => true
  | _ => false
  end.

(** One start and one terminal event, start first, as the specification
    words it. *)
Definition one_start_one_terminal (t : Trace) : Prop :=
  count is_start t = 1 /\ count is_terminal t = 1
  /\ preceded is_start is_terminal false t = true.

(** The audit bracket the handlers keep: the start event comes first and
    is the only one; every other audit event has status failed; every
    [next(error)] comes after a failed completion event; a request answered
    without [next(error)] and without an error status leaves no audit event
    but the start. *)
Definition audit_bracket (t : Trace) : bool :=
  starts_with is_start t
  && Nat.eqb (count is_start t) 1
  && forallb (fun e => negb (is_audit e) || is_start e || is_failed e) t
  && preceded is_failed_completion is_next false t
  && (existsb is_next t || existsb is_error_response t
      || Nat.eqb (count is_audit t) 1).

(** What every dispatched request keeps, by operation. *)
Definition dispatch_discipline (op : Operation) (t : Trace) : bool :=
  audit_bracket t
  && match op with
     | getWorkflowStatuses_op => negb (existsb is_permission_evaluation t)
     | _ => authorization_before_use t
     end
  && (resolves_before_authorizing op
      || Operation_eqb op getWorkflowStatuses_op
      || authorization_first t).

(** The first [next(error)] of the trace forwards an [UnauthorizedError]
    and an audit event [completion / failed / UnauthorizedError] was
    emitted before it ([seen]: one was met already). *)
Fixpoint denial_recorded (seen : bool) (t : Trace) : bool :=
  match t with
  | [] => false
  | Next e :: _ => seen && is_UnauthorizedError e
  | e :: t' => denial_recorded (seen || is_denial_completion e) t'
  end.

(** A run that settles normally and keeps the discipline of its
    operation. *)
Definition keeps_discipline (op : Operation) (run : Async unit) : Prop :=
  outcome run = Fulfilled tt
  /\ dispatch_discipline op (effects run) = true.

Arguments keeps_discipline : simpl never.

(** ** Which permissions an operation is gated by *)

Section Candidates.

Variable E : Collaborators.

(** The candidate list the handler of [op] hands to [authorize], for the
    operations gated by a decision; [None] when the handler does not reach
    the gate (the instance lookup failed) or has none
    ([getWorkflowStatuses]; [getWorkflowsOverview] and [getInstances]
    filter instead of deciding). *)
Definition gate_candidates (op : Operation) (req : HttpRequest)
  : option (list BasicPermission) :=
  let read wid :=
    Some [orchestratorWorkflowPermission;
          orchestratorWorkflowSpecificPermission wid] in
  let use wid :=
    Some [orchestratorWorkflowUsePermission;
          orchestratorWorkflowUseSpecificPermission wid] in
  match op with
  | getWorkflowSourceById_op | getWorkflowOverviewById_op
  | getWorkflowInputSchemaById_op | getWorkflowInstances_op =>
      read (params_workflowId req)
  | executeWorkflow_op | retriggerInstance_op =>
      use (params_workflowId req)
  | getInstanceById_op =>
      match getInstanceById E (params_instanceId req)
              (Some (truthy_string
                       (extractQueryParam E req
                          (QUERY_PARAM_INCLUDE_ASSESSMENT E)))) with
      | Fulfilled a => read (processId (instance a))
      | Rejected _ => None
      end
  | abortWorkflow_op =>
      match getInstanceById E (params_instanceId req) None with
      | Fulfilled a => use (processId (instance a))
      | Rejected _ => None
      end
  | getWorkflowsOverview_op | getInstances_op | getWorkflowStatuses_op =>
      None
  end.

(** The decision of the permission service on one candidate alone, when it
    gives one. *)
Definition individual_decision (creds : BackstageCredentials)
  (p : BasicPermission) : option AuthorizePermissionResponse :=
  match permissionsSvc E [{| permission := p |}] creds with
  | Fulfilled ds => nth_error ds 0
  | Rejected _ => None
  end.

(** The permission service decides [p] on its own. *)
Definition decided (creds : BackstageCredentials) (p : BasicPermission)
  : bool :=
  match individual_decision creds p with
  | Some _ => true
  | None => false
  end.

End Candidates.

(** ** Sample collaborators *)

Module Sample.

Local Open Scope string_scope.

Definition guest : BackstageCredentials := "user:default/guest".

(** A permission service that answers every request of a batch from a
    policy, in order. *)
Definition policy_service (policy : BasicPermission -> AuthorizeResult)
  (requests : list AuthorizePermissionRequest) (_ : BackstageCredentials)
  : Settled (list AuthorizePermissionResponse) :=
  Fulfilled (map (fun r => {| result := policy (permission r) |}) requests).

Definition allow_all (_ : BasicPermission) : AuthorizeResult := ALLOW.
Definition deny_all (_ : BasicPermission) : AuthorizeResult := DENY.

(** Only the specific read permission on ["wf-A"]. *)
Definition only_wfA (p : BasicPermission) : AuthorizeResult :=
  match p with
  | orchestratorWorkflowSpecificPermission wid =>
      if String.eqb wid "wf-A" then ALLOW else DENY
  | _ => DENY
  end.

Definition unavailable : JsError :=
  UpstreamError "FetchError" "permission backend unavailable".

Definition failing_service
  (_ : list AuthorizePermissionRequest) (_ : BackstageCredentials)
  : Settled (list AuthorizePermissionResponse) :=
  Rejected unavailable.

Definition wfA : WorkflowOverviewDTO :=
  {| workflowId := "wf-A"; overview_fields := [("name", JString "A")] |}.
Definition wfB : WorkflowOverviewDTO :=
  {| workflowId := "wf-B"; overview_fields := [("name", JString "B")] |}.

Definition i1 : AssessedProcessInstanceDTO :=
  {| instance := {| instance_id := "i1"; processId := "wf-X";
                    instance_fields := [] |};
     assessedBy := None |}.

Definition world
  (svc : list AuthorizePermissionRequest -> BackstageCredentials ->
         Settled (list AuthorizePermissionResponse))
  (definition : WorkflowDefinition) : Collaborators :=
  {| credentials_of := fun _ => Fulfilled guest;
     permissionsSvc := svc;
     getWorkflowsOverview := fun _ _ =>
       Fulfilled {| overviews := Some [wfA; wfB];
                    paginationInfo := Some (JNumber 2) |};
     getWorkflowSourceById := fun _ => Fulfilled "id: wf-A";
     executeWorkflow := fun _ _ _ => Fulfilled (JObject [("id", JString "i2")]);
     retriggerInstance := fun _ _ => Fulfilled (JObject []);
     getWorkflowOverviewById := fun _ => Fulfilled (JObject []);
     getWorkflowStatuses := Fulfilled (JArray [JString "ACTIVE"]);
     getWorkflowInputSchemaById := fun _ _ =>
       Fulfilled (Some {| inputSchema := None |});
     getInstances := fun _ _ _ => Fulfilled (JArray []);
     getWorkflowIds := Fulfilled ["wf-A"; "wf-B"];
     getInstanceById := fun _ _ => Fulfilled i1;
     abortWorkflow := fun _ _ => Fulfilled (JObject []);
     extractQueryParam := fun _ _ => None;
     fetchWorkflowInfo := fun _ =>
       Fulfilled (Some {| serviceUrl := Some "http://wf-a";
                          info_fields := [] |});
     fetchWorkflowDefinition := fun _ => Fulfilled (Some definition);
     fetchInstanceVariables := fun _ => Fulfilled (Some []);
     extractWorkflowData := fun vars => Some vars;
     buildPagination := fun _ => JNull;
     error_status := fun e =>
       match e with UnauthorizedError => 403 | _ => 500 end;
     error_name := fun e =>
       match e with
       | UnauthorizedError => "NotAllowedError"
       | TypeError _ => "TypeError"
       | PlainError _ => "Error"
       | UpstreamError n _ => n
       end;
     error_message := fun e =>
       match e with
       | UnauthorizedError => "Unauthorized"
       | TypeError m => m
       | PlainError m => m
       | UpstreamError _ m => m
       end;
     QUERY_PARAM_BUSINESS_KEY := "businessKey";
     QUERY_PARAM_INCLUDE_ASSESSMENT := "includeAssessment";
     INTERNAL_SERVER_ERROR_MESSAGE := "internal server error" |}.

Definition with_schema : WorkflowDefinition :=
  {| definition_id := "wf-A";
     dataInputSchema := Some (JObject [("type", JString "object")]) |}.

Definition without_schema : WorkflowDefinition :=
  {| definition_id := "wf-A"; dataInputSchema := None |}.

Definition open_world : Collaborators :=
  world (policy_service allow_all) with_schema.
Definition closed_world : Collaborators :=
  world (policy_service deny_all) with_schema.
Definition wfA_world : Collaborators :=
  world (policy_service only_wfA) with_schema.
Definition broken_world : Collaborators :=
  world failing_service with_schema.
Definition schemaless_world : Collaborators :=
  world (policy_service allow_all) without_schema.

Definition a_request : HttpRequest :=
  {| req_path := "/v2/workflows/wf-A";
     params_workflowId := "wf-A";
     params_instanceId := "i1";
     query_instanceId := Some "i1";
     req_headers := JObject [];
     req_query := JObject [];
     req_body := JObject [];
     body_filters := None |}.

End Sample.

(** ** Further observations *)

(** [l1] is [l2] with some elements left out, order kept. *)
Fixpoint subsequence (l1 l2 : list string) : bool :=
  match l1, l2 with
  | [], _ => true
  | _ :: _, [] => false
  | x :: l1', y :: l2' =>
      if String.eqb x y then subsequence l1' l2' else subsequence l1 l2'
  end.

Definition is_credentials (e : Effect) : bool :=
  match e with Credentials _ => true | _ => false end.

(** An audit event of [manageDenyAuthorization]. *)
Definition is_authorization_stage (e : Effect) : bool :=
  audit_with (fun ev => Stage_eqb (stage ev) stage_authorization) e.

(** The audit event of the router-level catch. *)
Definition is_generic_event (e : Effect) : bool :=
  audit_with (fun ev => String.eqb (eventName ev) "genericErrorHandler") e.

(** The answer the error middleware gives to an [UnauthorizedError]. *)
Definition is_UnauthorizedError_response (e : Effect) : bool :=
  match e with
  | Respond _ (body_error UnauthorizedError) => true
  | _ => false
  end.

(** The operations whose handler calls an engine operation that changes an
    instance. *)
Definition mutating (op : Operation) : bool :=
  match op with
  | executeWorkflow_op | retriggerInstance_op | abortWorkflow_op => true
  | _ => false
  end.

(** The operations whose handler runs the gate step outside its [try]. *)
Definition gate_outside_try (op : Operation) : bool :=
  match op with
  | getWorkflowSourceById_op | executeWorkflow_op | retriggerInstance_op
  | getWorkflowOverviewById_op | getWorkflowInstances_op => true
  | _ => false
  end.

(** What may still happen once a denial has been recorded: logging, the
    failed audit event, the forwarding of the [UnauthorizedError] and the
    middleware's answer to it. *)
Definition after_denial_allowed (e : Effect) : bool :=
  match e with
  | LoggerError _ UnauthorizedError => true
  | AuditLog ev =>
      Status_eqb (status ev) failed && only_UnauthorizedError (errors ev)
  | Next UnauthorizedError => true
  | Respond _ (body_error UnauthorizedError) => true
  | _ => false
  end.

Definition is_next_UnauthorizedError (e : Effect) : bool :=
  match e with Next UnauthorizedError => true | _ => false end.

(** The operations whose handler asks the gate for a decision; the others
    filter ([getWorkflowsOverview], [getInstances]) or have no gate
    ([getWorkflowStatuses]). *)
Definition decides (op : Operation) : bool :=
  match op with
  | getWorkflowsOverview_op | getInstances_op | getWorkflowStatuses_op => false
  | _ => true
  end.

(** If a denial is recorded, the first such event records a 403, only the
    closing of the request follows it, and the [UnauthorizedError] is
    forwarded after it. *)
Fixpoint denial_closes (t : Trace) : bool :=
  match t with
  | [] => true
  | e :: t' =>
      if is_authorization_stage e
      then is_denial_authorization e
           && forallb after_denial_allowed t'
           && existsb is_next_UnauthorizedError t'
      else denial_closes t'
  end.

(** Habits every dispatched request keeps, by operation. *)
Definition dispatch_habits (op : Operation) (t : Trace) : bool :=
  Nat.leb (count is_next t) 1
  && Nat.leb (count is_credentials t) 1
  && Nat.leb (count is_permission_evaluation t) 2
  && Nat.leb (count is_mutation t) 1
  && (mutating op || negb (existsb is_mutation t))
  && (negb (existsb is_mutation t) || negb (existsb is_authorization_stage t))
  && denial_closes t
  && (decides op || negb (existsb is_authorization_stage t))
  && (gate_outside_try op || negb (existsb is_generic_event t))
  && (negb (existsb is_generic_event t) || negb (existsb is_data_call t)).

(** A run that keeps the habits of its operation. *)
Definition keeps_habits (op : Operation) (run : Async unit) : Prop :=
  dispatch_habits op (effects run) = true.

Arguments keeps_habits : simpl never.

(** The permission service answered the single request for [p] (with a
    batch that may be empty). *)
Definition answered (E : Collaborators) (creds : BackstageCredentials)
  (p : BasicPermission) : bool :=
  match permissionsSvc E [{| permission := p |}] creds with
  | Fulfilled _ => true
  | Rejected _ => false
  end.

(** The error thrown by [d.result] when [d] is [undefined]. *)
Definition reading_result_of_undefined : JsError :=
  TypeError "Cannot read properties of undefined (reading 'result')".

(** The ids of an id list that sit at positions where the batch allows. *)
Definition allowed_positions (W : list string)
  (ds : list AuthorizePermissionResponse) : list string :=
  map fst
    (filter (fun p => AuthorizeResult_eqb (result (snd p)) ALLOW)
            (combine W ds)).

Definition is_fetchWorkflowDefinition (e : Effect) : bool :=
  match e with
  | Call (orchestratorService_fetchWorkflowDefinition _) => true
  | _ => false
  end.

(** An answer that carries an input schema together with [data]. *)
Definition sends_inputData (e : Effect) : bool :=
  match e with
  | Respond _ (body_inputSchema _ (Some _)) => true
  | _ => false
  end.

(** A data access other than the reads that resolve what to authorize. *)
Definition is_guarded_call (e : Effect) : bool :=
  is_data_call e && negb (is_resolving_read e).

(** One step of the [reduce] of [pick_inputData]. *)
Definition pick_step (workflowData : JsonObject) (result : JsonObject)
  (k : string) : JsonObject :=
  match get_field k workflowData with
  | Some v => if truthy v then set_field k v result else result
  | None => result
  end.

(** ** External routes: the scaffolder action endpoint *)

Definition is_null (v : JsonValue) : bool :=
  match v with JNull => true | _ => false end.

(** [Object.entries(v)] for a request body, which is typed as an object *)
Definition Object_entries (v : JsonValue) : list (string * JsonValue) :=
  match v with
  | JObject fields => fields
  | _ => []
  end.

(** [Object.fromEntries(entries)] *)
Definition Object_fromEntries (entries : list (string * JsonValue))
  : JsonObject :=
  fold_left (fun obj kv => set_field (fst kv) (snd kv) obj) entries [].

(** The [filteredBody] of the action endpoint: the entries of the body
    whose value is neither [undefined] nor [null]. *)
Definition filteredBody (body : JsonValue) : JsonObject :=
  Object_fromEntries
    (filter (fun kv => negb (is_null (snd kv))) (Object_entries body)).

(** What [setupExternalRoutes] is handed for the action endpoint: the
    scaffolder service and the request's accessors. *)
Record ExternalServices : Type :=
  { scaffolderService_executeAction :
      string -> option string -> JsonObject -> Settled JsonValue;
    req_header : HttpRequest -> string -> option string;
    params_actionId : HttpRequest -> string }.

Inductive ExternalEffect : Type :=
| ExternalAuditLog (ev : AuditEvent)
| ExecuteAction (actionId : string) (instanceId : option string)
    (input : JsonObject)
| ExternalRespond (status : nat) (body : JsonValue).

Definition is_external_audit (e : ExternalEffect) : bool :=
  match e with ExternalAuditLog _ => true | _ => false end.

Definition is_external_response (e : ExternalEffect) : bool :=
  match e with ExternalRespond _ _ => true | _ => false end.

Section ExternalRoutes.

Variable X : ExternalServices.

Local Open Scope string_scope.

(** [router.post('/actions/:actionId', ..)]; there is no [try] around the
    call of the scaffolder service. *)
Definition post_action (req : HttpRequest)
  : Settled unit * list ExternalEffect :=
  let actionId := params_actionId X req in
  let start :=
    ExternalAuditLog
      {| eventName := "ActionsActionIdEndpointHit";
         stage := stage_start;
         status := succeeded;
         level := level_debug;
         request := req;
         response := None;
         errors := [];
         message :=
           "Received request to '/actions/" ++ actionId ++ "' endpoint" |} in
  let instanceId := req_header X req "kogitoprocinstanceid" in
  let body := req_body req in
  let filteredBody := filteredBody body in
  let asked := ExecuteAction actionId instanceId filteredBody in
  match scaffolderService_executeAction X actionId instanceId filteredBody with
  | Fulfilled result =>
      (Fulfilled tt, [start; asked; ExternalRespond 200 result])
  | Rejected e => (Rejected e, [start; asked])
  end.

End ExternalRoutes.

(** [P] holds of the effects of a run; kept folded while a run is
    unfolded path by path. *)
Definition holds_on (P : Trace -> Prop) (run : Async unit) : Prop :=
  P (effects run).

Arguments holds_on : simpl never.

(** ** More sample collaborators *)

Module Variants.

Local Open Scope string_scope.

(** [E] with another [credentials_of]. *)
Definition with_credentials_of (E : Collaborators)
  (f : HttpRequest -> Settled BackstageCredentials) : Collaborators :=
  {| credentials_of := f;
     permissionsSvc := permissionsSvc E;
     getWorkflowsOverview := getWorkflowsOverview E;
     getWorkflowSourceById := getWorkflowSourceById E;
     executeWorkflow := executeWorkflow E;
     retriggerInstance := retriggerInstance E;
     getWorkflowOverviewById := getWorkflowOverviewById E;
     getWorkflowStatuses := getWorkflowStatuses E;
     getWorkflowInputSchemaById := getWorkflowInputSchemaById E;
     getInstances := getInstances E;
     getWorkflowIds := getWorkflowIds E;
     getInstanceById := getInstanceById E;
     abortWorkflow := abortWorkflow E;
     extractQueryParam := extractQueryParam E;
     fetchWorkflowInfo := fetchWorkflowInfo E;
     fetchWorkflowDefinition := fetchWorkflowDefinition E;
     fetchInstanceVariables := fetchInstanceVariables E;
     extractWorkflowData := extractWorkflowData E;
     buildPagination := buildPagination E;
     error_status := error_status E;
     error_name := error_name E;
     error_message := error_message E;
     QUERY_PARAM_BUSINESS_KEY := QUERY_PARAM_BUSINESS_KEY E;
     QUERY_PARAM_INCLUDE_ASSESSMENT := QUERY_PARAM_INCLUDE_ASSESSMENT E;
     INTERNAL_SERVER_ERROR_MESSAGE := INTERNAL_SERVER_ERROR_MESSAGE E |}.

(** [E] with another [getWorkflowInputSchemaById]. *)
Definition with_getWorkflowInputSchemaById (E : Collaborators)
  (f : string -> string -> Settled (option InputSchemaResponseDTO)) : Collaborators :=
  {| credentials_of := credentials_of E;
     permissionsSvc := permissionsSvc E;
     getWorkflowsOverview := getWorkflowsOverview E;
     getWorkflowSourceById := getWorkflowSourceById E;
     executeWorkflow := executeWorkflow E;
     retriggerInstance := retriggerInstance E;
     getWorkflowOverviewById := getWorkflowOverviewById E;
     getWorkflowStatuses := getWorkflowStatuses E;
     getWorkflowInputSchemaById := f;
     getInstances := getInstances E;
     getWorkflowIds := getWorkflowIds E;
     getInstanceById := getInstanceById E;
     abortWorkflow := abortWorkflow E;
     extractQueryParam := extractQueryParam E;
     fetchWorkflowInfo := fetchWorkflowInfo E;
     fetchWorkflowDefinition := fetchWorkflowDefinition E;
     fetchInstanceVariables := fetchInstanceVariables E;
     extractWorkflowData := extractWorkflowData E;
     buildPagination := buildPagination E;
     error_status := error_status E;
     error_name := error_name E;
     error_message := error_message E;
     QUERY_PARAM_BUSINESS_KEY := QUERY_PARAM_BUSINESS_KEY E;
     QUERY_PARAM_INCLUDE_ASSESSMENT := QUERY_PARAM_INCLUDE_ASSESSMENT E;
     INTERNAL_SERVER_ERROR_MESSAGE := INTERNAL_SERVER_ERROR_MESSAGE E |}.

(** [E] with another [fetchWorkflowInfo]. *)
Definition with_fetchWorkflowInfo (E : Collaborators)
  (f : string -> Settled (option WorkflowInfo)) : Collaborators :=
  {| credentials_of := credentials_of E;
     permissionsSvc := permissionsSvc E;
     getWorkflowsOverview := getWorkflowsOverview E;
     getWorkflowSourceById := getWorkflowSourceById E;
     executeWorkflow := executeWorkflow E;
     retriggerInstance := retriggerInstance E;
     getWorkflowOverviewById := getWorkflowOverviewById E;
     getWorkflowStatuses := getWorkflowStatuses E;
     getWorkflowInputSchemaById := getWorkflowInputSchemaById E;
     getInstances := getInstances E;
     getWorkflowIds := getWorkflowIds E;
     getInstanceById := getInstanceById E;
     abortWorkflow := abortWorkflow E;
     extractQueryParam := extractQueryParam E;
     fetchWorkflowInfo := f;
     fetchWorkflowDefinition := fetchWorkflowDefinition E;
     fetchInstanceVariables := fetchInstanceVariables E;
     extractWorkflowData := extractWorkflowData E;
     buildPagination := buildPagination E;
     error_status := error_status E;
     error_name := error_name E;
     error_message := error_message E;
     QUERY_PARAM_BUSINESS_KEY := QUERY_PARAM_BUSINESS_KEY E;
     QUERY_PARAM_INCLUDE_ASSESSMENT := QUERY_PARAM_INCLUDE_ASSESSMENT E;
     INTERNAL_SERVER_ERROR_MESSAGE := INTERNAL_SERVER_ERROR_MESSAGE E |}.

(** [E] with another [fetchWorkflowDefinition]. *)
Definition with_fetchWorkflowDefinition (E : Collaborators)
  (f : string -> Settled (option WorkflowDefinition)) : Collaborators :=
  {| credentials_of := credentials_of E;
     permissionsSvc := permissionsSvc E;
     getWorkflowsOverview := getWorkflowsOverview E;
     getWorkflowSourceById := getWorkflowSourceById E;
     executeWorkflow := executeWorkflow E;
     retriggerInstance := retriggerInstance E;
     getWorkflowOverviewById := getWorkflowOverviewById E;
     getWorkflowStatuses := getWorkflowStatuses E;
     getWorkflowInputSchemaById := getWorkflowInputSchemaById E;
     getInstances := getInstances E;
     getWorkflowIds := getWorkflowIds E;
     getInstanceById := getInstanceById E;
     abortWorkflow := abortWorkflow E;
     extractQueryParam := extractQueryParam E;
     fetchWorkflowInfo := fetchWorkflowInfo E;
     fetchWorkflowDefinition := f;
     fetchInstanceVariables := fetchInstanceVariables E;
     extractWorkflowData := extractWorkflowData E;
     buildPagination := buildPagination E;
     error_status := error_status E;
     error_name := error_name E;
     error_message := error_message E;
     QUERY_PARAM_BUSINESS_KEY := QUERY_PARAM_BUSINESS_KEY E;
     QUERY_PARAM_INCLUDE_ASSESSMENT := QUERY_PARAM_INCLUDE_ASSESSMENT E;
     INTERNAL_SERVER_ERROR_MESSAGE := INTERNAL_SERVER_ERROR_MESSAGE E |}.

(** [E] with another [getInstances]. *)
Definition with_getInstances (E : Collaborators)
  (f : Pagination -> option Filter -> list string -> Settled JsonValue) : Collaborators :=
  {| credentials_of := credentials_of E;
     permissionsSvc := permissionsSvc E;
     getWorkflowsOverview := getWorkflowsOverview E;
     getWorkflowSourceById := getWorkflowSourceById E;
     executeWorkflow := executeWorkflow E;
     retriggerInstance := retriggerInstance E;
     getWorkflowOverviewById := getWorkflowOverviewById E;
     getWorkflowStatuses := getWorkflowStatuses E;
     getWorkflowInputSchemaById := getWorkflowInputSchemaById E;
     getInstances := f;
     getWorkflowIds := getWorkflowIds E;
     getInstanceById := getInstanceById E;
     abortWorkflow := abortWorkflow E;
     extractQueryParam := extractQueryParam E;
     fetchWorkflowInfo := fetchWorkflowInfo E;
     fetchWorkflowDefinition := fetchWorkflowDefinition E;
     fetchInstanceVariables := fetchInstanceVariables E;
     extractWorkflowData := extractWorkflowData E;
     buildPagination := buildPagination E;
     error_status := error_status E;
     error_name := error_name E;
     error_message := error_message E;
     QUERY_PARAM_BUSINESS_KEY := QUERY_PARAM_BUSINESS_KEY E;
     QUERY_PARAM_INCLUDE_ASSESSMENT := QUERY_PARAM_INCLUDE_ASSESSMENT E;
     INTERNAL_SERVER_ERROR_MESSAGE := INTERNAL_SERVER_ERROR_MESSAGE E |}.

(** [E] with another [getInstanceById]. *)
Definition with_getInstanceById (E : Collaborators)
  (f : string -> option bool -> Settled AssessedProcessInstanceDTO) : Collaborators :=
  {| credentials_of := credentials_of E;
     permissionsSvc := permissionsSvc E;
     getWorkflowsOverview := getWorkflowsOverview E;
     getWorkflowSourceById := getWorkflowSourceById E;
     executeWorkflow := executeWorkflow E;
     retriggerInstance := retriggerInstance E;
     getWorkflowOverviewById := getWorkflowOverviewById E;
     getWorkflowStatuses := getWorkflowStatuses E;
     getWorkflowInputSchemaById := getWorkflowInputSchemaById E;
     getInstances := getInstances E;
     getWorkflowIds := getWorkflowIds E;
     getInstanceById := f;
     abortWorkflow := abortWorkflow E;
     extractQueryParam := extractQueryParam E;
     fetchWorkflowInfo := fetchWorkflowInfo E;
     fetchWorkflowDefinition := fetchWorkflowDefinition E;
     fetchInstanceVariables := fetchInstanceVariables E;
     extractWorkflowData := extractWorkflowData E;
     buildPagination := buildPagination E;
     error_status := error_status E;
     error_name := error_name E;
     error_message := error_message E;
     QUERY_PARAM_BUSINESS_KEY := QUERY_PARAM_BUSINESS_KEY E;
     QUERY_PARAM_INCLUDE_ASSESSMENT := QUERY_PARAM_INCLUDE_ASSESSMENT E;
     INTERNAL_SERVER_ERROR_MESSAGE := INTERNAL_SERVER_ERROR_MESSAGE E |}.

(** A permission service that denies the generic read permission, answers
    a single specific read request with an empty batch and allows the
    rest. *)
Definition forgetful_service (requests : list AuthorizePermissionRequest)
  (_ : BackstageCredentials) : Settled (list AuthorizePermissionResponse) :=
  match requests with
  | [{| permission := orchestratorWorkflowSpecificPermission _ |}] =>
      Fulfilled []
  | _ =>
      Fulfilled
        (map (fun r =>
                {| result :=
                     match permission r with
                     | orchestratorWorkflowPermission => DENY
                     | _ => ALLOW
                     end |}) requests)
  end.

Definition forgetful_world : Collaborators :=
  Sample.world forgetful_service Sample.with_schema.

(** A permission service that denies the generic read permission and
    answers any batch with a single ALLOW. *)
Definition short_service (requests : list AuthorizePermissionRequest)
  (_ : BackstageCredentials) : Settled (list AuthorizePermissionResponse) :=
  match requests with
  | [{| permission := orchestratorWorkflowPermission |}] =>
      Fulfilled [{| result := DENY |}]
  | _ => Fulfilled [{| result := ALLOW |}]
  end.

Definition short_world : Collaborators :=
  Sample.world short_service Sample.with_schema.

(** A permission service that answers a batch position by position:
    generic read denied, then ALLOW, DENY, ALLOW, ... *)
Fixpoint alternate (allow : bool) (requests : list AuthorizePermissionRequest)
  : list AuthorizePermissionResponse :=
  match requests with
  | [] => []
  | _ :: rest =>
      {| result := if allow then ALLOW else DENY |}
        :: alternate (negb allow) rest
  end.

Definition alternating_service (requests : list AuthorizePermissionRequest)
  (_ : BackstageCredentials) : Settled (list AuthorizePermissionResponse) :=
  match requests with
  | [{| permission := orchestratorWorkflowPermission |}] =>
      Fulfilled [{| result := DENY |}]
  | _ => Fulfilled (alternate true requests)
  end.

Definition alternating_world : Collaborators :=
  Sample.world alternating_service Sample.with_schema.

Definition anonymous : JsError :=
  UpstreamError "AuthenticationError" "Missing credentials".

Definition anonymous_world : Collaborators :=
  with_credentials_of Sample.open_world (fun _ => Rejected anonymous).


Definition schema_with_properties : JsonValue :=
  JObject [("type", JString "object");
           ("properties",
            JObject [("name", JObject [("type", JString "string")]);
                     ("size", JObject [("type", JString "number")]);
                     ("note", JObject [("type", JString "string")])])].

End Variants.

(** ** Symbolic runs *)

(** One step of a symbolic run: case analysis on the innermost answer of a
    collaborator (or test) the trace still waits for. *)
Ltac split_path :=
  match goal with
  | |- context [match ?x with _ => _ end] =>
      lazymatch x with
      | context [match _ with _ => _ end] => fail
      | _ => let H := fresh "Hpath" in destruct x eqn:H
      end
  end.

Ltac unfold_router :=
  unfold handleRequest, handler,
    handle_getWorkflowsOverview, handle_getWorkflowSourceById,
    handle_executeWorkflow, handle_retriggerInstance,
    handle_getWorkflowOverviewById, handle_getWorkflowStatuses,
    handle_getWorkflowInputSchemaById, handle_getWorkflowInstances,
    handle_getInstances, handle_getInstanceById, handle_abortWorkflow,
    api_getWorkflowsOverview, api_getWorkflowSourceById, api_executeWorkflow,
    api_retriggerInstance, api_getWorkflowOverviewById,
    api_getWorkflowStatuses, api_getWorkflowInputSchemaById, api_getInstances,
    api_getWorkflowIds, api_getInstanceById, api_abortWorkflow,
    svc_fetchWorkflowInfo, svc_fetchWorkflowDefinition,
    svc_fetchInstanceVariables,
    filterAuthorizedWorkflows, filterAuthorizedWorkflowIds, authorize,
    deny_guard, manageDenyAuthorization, auditLogRequestError, next_error,
    credentials, permissionsSvc_authorize, Promise_all, Array_filter,
    auditLogger_auditLog, res_json, received,
    perform, await, try_catch, bind, throw, ret, effects, outcome.

Ltac reuse_path :=
  match goal with
  | H : ?x = _ |- context [match ?x with _ => _ end] => rewrite H
  end.

Ltac run_paths := repeat (simpl; try reuse_path; try split_path).

(** The habits of a run, one hypothesis each. *)
Ltac habits kept :=
  let H := fresh "Habits" in
  pose proof kept as H;
  unfold keeps_habits, dispatch_habits in H;
  repeat (apply andb_prop in H;
          let H' := fresh "Habit" in destruct H as [H H']).

(** Fold the goal into [holds_on] over the effects of a request. *)
Ltac fold_effects E op req :=
  match goal with
  | |- ?G =>
      match eval pattern (effects (handleRequest E op req)) in G with
      | ?P _ => change (holds_on P (handleRequest E op req))
      end
  end.

(** Close a path of a run under the hypothesis that the gate allowed. *)
Ltac close_authorized Hout Hallow :=
  intros Hout Hallow; unfold holds_on, effects; cbn [snd];
  first [ repeat split; reflexivity
        | discriminate Hout
        | injection Hout as <-;
          first [ cbn [result] in Hallow; congruence
                | rewrite Hallow in *; simpl in *; congruence ] ].


(** * Properties *)

(** ** Runs on the sample collaborators *)

(** A caller holding only the specific permission on ["wf-A"] asks for the
    overviews of ["wf-A"] and ["wf-B"]: the answer lists ["wf-A"] alone. *)
Example overview_of_wfA_only :
  filter is_response
    (effects (handleRequest Sample.wfA_world getWorkflowsOverview_op
                Sample.a_request))
  = [Respond 200
       (body_overviews {| overviews := Some [Sample.wfA];
                          paginationInfo := Some (JNumber 2) |})].
Proof. reflexivity. Qed.

(** The effects of an allowed [getWorkflowSourceById], audit events left
    out: credentials, one permission call per candidate, the read, the
    answer. *)
Example allowed_source_run :
  filter (fun e => negb (is_audit e))
    (effects (handleRequest Sample.open_world getWorkflowSourceById_op
                Sample.a_request))
  = [Credentials Sample.a_request;
     PermissionsAuthorize
       [{| permission := orchestratorWorkflowPermission |}] Sample.guest;
     PermissionsAuthorize
       [{| permission := orchestratorWorkflowSpecificPermission "wf-A" |}]
       Sample.guest;
     Call (v2_getWorkflowSourceById "wf-A");
     Respond 200 (body_text "id: wf-A")].
Proof. reflexivity. Qed.

(** The stages and statuses a denied [getInstanceById] leaves in the audit
    log, and the statuses it answers with. *)
Example denied_instance_run :
  let t := effects (handleRequest Sample.closed_world getInstanceById_op
                      Sample.a_request) in
  (count is_start t, count is_denial_authorization t,
   count is_denial_completion t, response_statuses t)
  = (1, 1, 1, [403]).
Proof. reflexivity. Qed.

(** A permission service that is down: [authorize] is rejected with the
    service's error. *)
Example authorize_service_down :
  outcome (authorize Sample.broken_world Sample.a_request
             [orchestratorWorkflowPermission;
              orchestratorWorkflowSpecificPermission "wf-A"])
  = Rejected Sample.unavailable.
Proof. reflexivity. Qed.

(** A permission service that answers with an empty batch: reading
    [result] of the missing decision throws. *)
Example authorize_empty_answer :
  outcome (authorize
             (Sample.world (fun _ _ => Fulfilled []) Sample.with_schema)
             Sample.a_request [orchestratorWorkflowPermission])
  = Rejected
      (TypeError "Cannot read properties of undefined (reading 'result')").
Proof. reflexivity. Qed.

(** ** Reading traces *)

(** What [preceded] decides, spelled out on positions of the trace. *)
Lemma preceded_sound (before after : Effect -> bool) (t : Trace) :
  preceded before after false t = true ->
  forall t1 e t2,
    t = t1 ++ e :: t2 -> after e = true ->
    exists b, In b t1 /\ before b = true.
Proof.
  induction t as [|x t IH]; intros Hp t1 e t2 Ht Ha.
  - destruct t1; discriminate.
  - simpl in Hp. apply andb_prop in Hp. destruct Hp as [Hx Hrest].
    destruct t1 as [|y t1]; simpl in Ht; injection Ht as -> ->.
    + rewrite Ha in Hx. discriminate.
    + destruct (before y) eqn:Hb.
      * exists y. split; [left; reflexivity | exact Hb].
      * simpl in Hrest.
        destruct (IH Hrest t1 e t2 eq_refl Ha) as [b [Hin Hbb]].
        exists b. split; [right; exact Hin | exact Hbb].
Qed.

(** ** The Permission Gate *)

Section GateFacts.

Variable E : Collaborators.
Variable req : HttpRequest.
Variable creds : BackstageCredentials.
Hypothesis Hcreds : credentials_of E req = Fulfilled creds.

Local Notation "'single' p" := [{| permission := p |}] (at level 10, p at level 9).

Lemma Promise_all_singletons (perms : list BasicPermission) :
  Promise_all
    (map (fun p => permissionsSvc_authorize E (single p) creds) perms)
  = (all_settled (map (fun p => permissionsSvc E (single p) creds) perms),
     map (fun p => PermissionsAuthorize (single p) creds) perms).
Proof.
  unfold Promise_all, permissionsSvc_authorize, await.
  rewrite !map_map. simpl. f_equal.
  induction perms as [|p perms IH]; simpl; [reflexivity|].
  f_equal. exact IH.
Qed.

(** [authorize] in one equation: the credentials are resolved, one call
    per candidate is issued, and the decisions are searched. *)
Lemma authorize_unfold (perms : list BasicPermission) :
  authorize E req perms =
  (match all_settled
           (map (fun p => permissionsSvc E (single p) creds) perms) with
   | Fulfilled decisionResponses =>
       match Array_find result_is_ALLOW
               (map (fun d => nth_error d 0) decisionResponses) with
       | Fulfilled (Some (Some d)) => Fulfilled d
       | Fulfilled _ => Fulfilled {| result := DENY |}
       | Rejected e => Rejected e
       end
   | Rejected e => Rejected e
   end,
   Credentials req
     :: map (fun p => PermissionsAuthorize (single p) creds) perms).
Proof.
  unfold authorize, credentials, await, bind. rewrite Hcreds.
  rewrite Promise_all_singletons.
  destruct (all_settled _) as [rs|e]; simpl; [|reflexivity].
  destruct (Array_find _ _) as [[[d|]|]|e]; simpl;
    rewrite ?app_nil_r; reflexivity.
Qed.

(** When every candidate gets an answer, the answers are the individual
    decisions. *)
Lemma all_settled_decided (perms : list BasicPermission) :
  forallb (decided E creds) perms = true ->
  exists rs,
    all_settled (map (fun p => permissionsSvc E (single p) creds) perms)
    = Fulfilled rs
    /\ map (fun d => nth_error d 0) rs
       = map (individual_decision E creds) perms.
Proof.
  induction perms as [|p perms IH]; cbn [map forallb all_settled]; intros H.
  - exists []. split; reflexivity.
  - apply andb_prop in H. destruct H as [Hp Hrest].
    destruct (IH Hrest) as [rs [Hrs Hmap]].
    destruct (permissionsSvc E (single p) creds) as [ds|e] eqn:Hsvc.
    2: { unfold decided, individual_decision in Hp. rewrite Hsvc in Hp.
         discriminate. }
    rewrite Hrs. exists (ds :: rs). split; [reflexivity|].
    cbn [map]. rewrite Hmap. f_equal.
    unfold individual_decision. rewrite Hsvc. reflexivity.
Qed.

(** The search over individual decisions: nothing found and all of them
    DENY, or the first ALLOW with only DENY before it. *)
Lemma Array_find_decided (perms : list BasicPermission) :
  forallb (decided E creds) perms = true ->
  (Array_find result_is_ALLOW (map (individual_decision E creds) perms)
   = Fulfilled None
   /\ forall p, In p perms ->
        exists a, individual_decision E creds p = Some a /\ result a = DENY)
  \/
  (exists before p a after,
     perms = before ++ p :: after
     /\ Array_find result_is_ALLOW (map (individual_decision E creds) perms)
        = Fulfilled (Some (Some a))
     /\ individual_decision E creds p = Some a
     /\ result a = ALLOW
     /\ forall q, In q before ->
          exists b, individual_decision E creds q = Some b /\ result b = DENY).
Proof.
  induction perms as [|p perms IH]; simpl; intros H.
  - left. split; [reflexivity | intros p []].
  - apply andb_prop in H. destruct H as [Hp Hrest].
    unfold decided in Hp.
    destruct (individual_decision E creds p) as [a|] eqn:Hd; [|discriminate].
    simpl. destruct a as [[|]]; simpl.
    + right. exists [], p, {| result := ALLOW |}, perms.
      repeat split; auto. intros q [].
    + destruct (IH Hrest) as [[Hnone Hall] | (before & q & a & after & Hsplit & Hfind & Hq & Ha & Hbefore)].
      * left. split; [exact Hnone|].
        intros q [<- | Hin]; [exists {| result := DENY |}; auto | auto].
      * right. exists (p :: before), q, a, after.
        repeat split; auto.
        -- rewrite Hsplit. reflexivity.
        -- intros r [<- | Hin]; [exists {| result := DENY |}; auto | auto].
Qed.

(** The index filter against a batch of decisions that has one decision
    per id. *)
Lemma Array_filter_batch (S : string -> bool) (W : list string) :
  forall (seen ds : list AuthorizePermissionResponse),
    map result ds = map (fun w => if S w then ALLOW else DENY) W ->
    Array_filter_from
      (fun (_ : string) idx => result_is_ALLOW (nth_error (seen ++ ds) idx))
      (length seen) W
    = Fulfilled (filter S W).
Proof.
  induction W as [|w W IH]; intros seen ds Hds; simpl; [reflexivity|].
  destruct ds as [|d ds]; [discriminate|].
  simpl in Hds. injection Hds as Hd Hrest.
  rewrite nth_error_app2 by lia. rewrite Nat.sub_diag. simpl.
  specialize (IH (seen ++ [d]) ds Hrest).
  rewrite <- app_assoc in IH. simpl in IH.
  rewrite length_app in IH. simpl in IH. rewrite Nat.add_1_r in IH.
  rewrite IH. rewrite Hd. destruct (S w); reflexivity.
Qed.

Lemma all_settled_rejected (perms : list BasicPermission) p e :
  In p perms ->
  permissionsSvc E (single p) creds = Rejected e ->
  exists q e',
    In q perms
    /\ permissionsSvc E (single q) creds = Rejected e'
    /\ all_settled (map (fun p => permissionsSvc E (single p) creds) perms)
       = Rejected e'.
Proof.
  induction perms as [|x perms IH]; intros Hin Hrej; [destruct Hin|].
  simpl. destruct (permissionsSvc E (single x) creds) as [ds|e'] eqn:Hx.
  - destruct Hin as [-> | Hin]; [congruence|].
    destruct (IH Hin Hrej) as (q & e' & Hq & Hqe & Hall).
    exists q, e'. rewrite Hall. auto.
  - exists x, e'. auto.
Qed.

End GateFacts.

(** A list splits in one way only at its first element with property [P],
    when the elements before it have a property [Q] that excludes [P]. *)
Lemma first_split_unique {A} (P Q : A -> Prop)
  (before before' after after' : list A) (p p' : A) :
  before ++ p :: after = before' ++ p' :: after' ->
  (forall q, P q -> Q q -> False) ->
  (forall q, In q before -> Q q) ->
  (forall q, In q before' -> Q q) ->
  P p -> P p' ->
  p = p'.
Proof.
  intros Hsplit Hex. revert before' Hsplit.
  induction before as [|x before IH]; intros [|y before'] Hsplit Hb Hb' Hp Hp';
    simpl in Hsplit; injection Hsplit as Hhead Htail.
  - exact Hhead.
  - subst y. exfalso. apply (Hex p Hp). apply Hb'. left. reflexivity.
  - subst x. exfalso. apply (Hex p' Hp'). apply Hb. left. reflexivity.
  - apply (IH before' Htail); auto.
    + intros q Hq. apply Hb. right. exact Hq.
    + intros q Hq. apply Hb'. right. exact Hq.
Qed.

(** C1. Any-of authorization.  Given the caller's credentials and a list of
    candidates each of which the permission service decides, [authorize]
    asks the service about every candidate on its own, one single-request
    call per candidate in the order given, and settles with a decision that
    is ALLOW exactly when some candidate's own decision is ALLOW and DENY
    exactly when every candidate's own decision is DENY; the decision
    returned is the first ALLOW in candidate order. *)
Theorem authorize_any_of
  (E : Collaborators) (req : HttpRequest) (creds : BackstageCredentials)
  (perms : list BasicPermission) :
  credentials_of E req = Fulfilled creds ->
  forallb (decided E creds) perms = true ->
  exists d,
    outcome (authorize E req perms) = Fulfilled d
    /\ effects (authorize E req perms)
       = Credentials req
           :: map (fun p => PermissionsAuthorize [{| permission := p |}] creds)
                  perms
    /\ (result d = ALLOW <->
        exists p a, In p perms /\ individual_decision E creds p = Some a
                    /\ result a = ALLOW)
    /\ (result d = DENY <->
        forall p, In p perms ->
          exists a, individual_decision E creds p = Some a /\ result a = DENY)
    /\ (forall before p a after,
          perms = before ++ p :: after ->
          (forall q, In q before ->
             exists b, individual_decision E creds q = Some b
                       /\ result b = DENY) ->
          individual_decision E creds p = Some a ->
          result a = ALLOW ->
          d = a).
Proof.
  intros Hcreds Hdec.
  rewrite (authorize_unfold E req Hcreds perms). unfold outcome, effects.
  cbn [fst snd].
  destruct (all_settled_decided E creds perms Hdec) as [rs [Hrs Hmap]].
  rewrite Hrs, Hmap.
  destruct (Array_find_decided E creds perms Hdec)
    as [[Hnone Hall]
       | (before & p & a & after & Hsplit & Hfind & Hp & Ha & Hbefore)].
  - rewrite Hnone. exists {| result := DENY |}.
    split; [reflexivity|]. split; [reflexivity|]. cbn [result].
    split; [|split].
    + split; [discriminate|].
      intros (p & a & Hin & Hp & Ha).
      destruct (Hall p Hin) as (a' & Hp' & Ha'). congruence.
    + split; auto.
    + intros before p a after Hsplit _ Hp Ha.
      destruct (Hall p) as (a' & Hp' & Ha').
      { rewrite Hsplit. apply in_or_app. right. left. reflexivity. }
      congruence.
  - rewrite Hfind. exists a.
    split; [reflexivity|]. split; [reflexivity|].
    split; [|split].
    + split; [|auto]. intros _. exists p, a. repeat split; auto.
      rewrite Hsplit. apply in_or_app. right. left. reflexivity.
    + split; [congruence|]. intros Hall.
      destruct (Hall p) as (a' & Hp' & Ha').
      { rewrite Hsplit. apply in_or_app. right. left. reflexivity. }
      congruence.
    + intros before' p' a' after' Hsplit' Hbefore' Hp' Ha'.
      assert (p = p') as <-; [|congruence].
      rewrite Hsplit in Hsplit'.
      apply (@first_split_unique _
               (fun q => exists b, individual_decision E creds q = Some b
                                   /\ result b = ALLOW)
               (fun q => exists b, individual_decision E creds q = Some b
                                   /\ result b = DENY)
               before before' after after' p p' Hsplit'); eauto.
      intros q (b & Hb & Hba) (b' & Hb' & Hbd). congruence.
Qed.

Lemma authorize_any_of_witness :
  exists d,
    outcome (authorize Sample.wfA_world Sample.a_request
               [orchestratorWorkflowPermission;
                orchestratorWorkflowSpecificPermission "wf-A"]) = Fulfilled d
    /\ result d = ALLOW.
Proof.
  destruct
    (authorize_any_of Sample.wfA_world Sample.a_request (creds := Sample.guest)
       [orchestratorWorkflowPermission;
        orchestratorWorkflowSpecificPermission "wf-A"]
       eq_refl eq_refl) as (d & Hout & _ & Hallow & _).
  exists d. split; [exact Hout|].
  apply Hallow.
  exists (orchestratorWorkflowSpecificPermission "wf-A"),
         {| result := ALLOW |}.
  split; [right; left; reflexivity | split; reflexivity].
Defined.

(** C2. Generic grant short-circuit.  When the permission service allows the
    generic workflow read permission for the caller's credentials,
    [filterAuthorizedWorkflowIds] returns the given ids unchanged and the
    only authorization call made is the one for the generic permission. *)
Theorem filterAuthorizedWorkflowIds_generic
  (E : Collaborators) (req : HttpRequest) (creds : BackstageCredentials)
  (W : list string) (d : AuthorizePermissionResponse)
  (rest : list AuthorizePermissionResponse) :
  credentials_of E req = Fulfilled creds ->
  permissionsSvc E [{| permission := orchestratorWorkflowPermission |}] creds
  = Fulfilled (d :: rest) ->
  result d = ALLOW ->
  filterAuthorizedWorkflowIds E req W
  = (Fulfilled W,
     [Credentials req;
      PermissionsAuthorize
        [{| permission := orchestratorWorkflowPermission |}] creds]).
Proof.
  intros Hcreds Hgen Hallow.
  unfold filterAuthorizedWorkflowIds, credentials, permissionsSvc_authorize,
    await, bind.
  rewrite Hcreds, Hgen. cbn [nth_error result_is_ALLOW].
  rewrite Hallow. reflexivity.
Qed.

Lemma filterAuthorizedWorkflowIds_generic_witness :
  filterAuthorizedWorkflowIds Sample.open_world Sample.a_request
    ["wf-B"; "wf-A"; "wf-B"]
  = (Fulfilled ["wf-B"; "wf-A"; "wf-B"],
     [Credentials Sample.a_request;
      PermissionsAuthorize
        [{| permission := orchestratorWorkflowPermission |}] Sample.guest]).
Proof.
  apply (filterAuthorizedWorkflowIds_generic Sample.open_world Sample.a_request
           (creds := Sample.guest) ["wf-B"; "wf-A"; "wf-B"]
           (d := {| result := ALLOW |}) (rest := []));
    reflexivity.
Defined.

(** C3. Specific grants.  When the generic workflow read permission is
    denied and the caller holds specific grants for exactly the ids
    selected by [S], [filterAuthorizedWorkflowIds] issues one batched call
    carrying one specific-permission request per id of [W], in order, and
    returns the ids of [W] selected by [S] in their order in [W]. *)
Theorem filterAuthorizedWorkflowIds_specific
  (E : Collaborators) (req : HttpRequest) (creds : BackstageCredentials)
  (W : list string) (S : string -> bool)
  (d : AuthorizePermissionResponse)
  (rest ds : list AuthorizePermissionResponse) :
  credentials_of E req = Fulfilled creds ->
  permissionsSvc E [{| permission := orchestratorWorkflowPermission |}] creds
  = Fulfilled (d :: rest) ->
  result d = DENY ->
  permissionsSvc E
    (map (fun w => {| permission := orchestratorWorkflowSpecificPermission w |})
         W) creds
  = Fulfilled ds ->
  map result ds = map (fun w => if S w then ALLOW else DENY) W ->
  filterAuthorizedWorkflowIds E req W
  = (Fulfilled (filter S W),
     [Credentials req;
      PermissionsAuthorize
        [{| permission := orchestratorWorkflowPermission |}] creds;
      PermissionsAuthorize
        (map (fun w =>
                {| permission := orchestratorWorkflowSpecificPermission w |})
             W) creds]).
Proof.
  intros Hcreds Hgen Hdeny Hbatch Hds.
  unfold filterAuthorizedWorkflowIds, credentials, permissionsSvc_authorize,
    await, bind.
  rewrite Hcreds, Hgen. cbn [nth_error result_is_ALLOW].
  rewrite Hdeny. cbn [AuthorizeResult_eqb]. rewrite Hbatch.
  unfold Array_filter.
  pose proof (Array_filter_batch S W [] ds Hds) as Hfilter.
  cbn [app length] in Hfilter. rewrite Hfilter. reflexivity.
Qed.

Lemma filterAuthorizedWorkflowIds_specific_witness :
  filterAuthorizedWorkflowIds Sample.wfA_world Sample.a_request
    ["wf-B"; "wf-A"; "wf-C"; "wf-A"]
  = (Fulfilled ["wf-A"; "wf-A"],
     [Credentials Sample.a_request;
      PermissionsAuthorize
        [{| permission := orchestratorWorkflowPermission |}] Sample.guest;
      PermissionsAuthorize
        [{| permission := orchestratorWorkflowSpecificPermission "wf-B" |};
         {| permission := orchestratorWorkflowSpecificPermission "wf-A" |};
         {| permission := orchestratorWorkflowSpecificPermission "wf-C" |};
         {| permission := orchestratorWorkflowSpecificPermission "wf-A" |}]
        Sample.guest]).
Proof.
  apply (filterAuthorizedWorkflowIds_specific Sample.wfA_world Sample.a_request
           (creds := Sample.guest) ["wf-B"; "wf-A"; "wf-C"; "wf-A"]
           (String.eqb "wf-A")
           (d := {| result := DENY |}) (rest := [])
           (ds := [{| result := DENY |}; {| result := ALLOW |};
                   {| result := DENY |}; {| result := ALLOW |}]));
    reflexivity.
Defined.

(** C9. Failures of the permission service propagate.  Whenever a call that
    [authorize] or [filterAuthorizedWorkflowIds] made on the permission
    service was rejected, the function itself is rejected with the error of
    a rejected call; the failure is never turned into a decision or into a
    list of ids. *)
Theorem permission_service_failure_propagates
  (E : Collaborators) (req : HttpRequest)
  (requests : list AuthorizePermissionRequest) (creds : BackstageCredentials)
  (e : JsError) :
  permissionsSvc E requests creds = Rejected e ->
  (forall perms,
     In (PermissionsAuthorize requests creds)
        (effects (authorize E req perms)) ->
     exists requests' e',
       In (PermissionsAuthorize requests' creds)
          (effects (authorize E req perms))
       /\ permissionsSvc E requests' creds = Rejected e'
       /\ outcome (authorize E req perms) = Rejected e')
  /\ (forall W,
        In (PermissionsAuthorize requests creds)
           (effects (filterAuthorizedWorkflowIds E req W)) ->
        outcome (filterAuthorizedWorkflowIds E req W) = Rejected e).
Proof.
  intros Hrej. split.
  - intros perms Hin.
    destruct (credentials_of E req) as [c|e0] eqn:Hcreds.
    + rewrite (authorize_unfold E req Hcreds perms) in *.
      unfold effects, outcome in *. cbn [fst snd] in *.
      destruct Hin as [Hin | Hin]; [discriminate|].
      apply in_map_iff in Hin. destruct Hin as (p & Heq & Hp).
      injection Heq as <- <-.
      destruct (all_settled_rejected E c perms p Hp Hrej)
        as (q & e' & Hq & Hqe & Hall).
      exists [{| permission := q |}], e'. rewrite Hall.
      split; [|split; [exact Hqe | reflexivity]].
      right. apply in_map_iff. exists q. split; [reflexivity | exact Hq].
    + unfold authorize, credentials, await, bind, effects in Hin.
      rewrite Hcreds in Hin. cbn [snd] in Hin.
      destruct Hin as [Hin | []]. discriminate.
  - intros W.
    unfold filterAuthorizedWorkflowIds, credentials, permissionsSvc_authorize,
      await, bind, effects, outcome.
    destruct (credentials_of E req) as [c|e0]; cbn [fst snd].
    2: { intros [Hin | []]. discriminate. }
    destruct (permissionsSvc E
                [{| permission := orchestratorWorkflowPermission |}] c)
      as [gs|e1] eqn:Hgen; cbn [fst snd app].
    2: { intros [Hin | [Hin | []]]; [discriminate|].
         injection Hin as <- <-. congruence. }
    destruct (result_is_ALLOW (nth_error gs 0)) as [[|]|e2];
      cbn [fst snd app].
    + intros [Hin | [Hin | []]]; [discriminate|].
      injection Hin as <- <-. congruence.
    + destruct (permissionsSvc E
                  (map (fun workflowId =>
                          {| permission :=
                              orchestratorWorkflowSpecificPermission
                                workflowId |}) W) c)
        as [ds|e3] eqn:Hbatch; cbn [fst snd app].
      * intros [Hin | [Hin | [Hin | []]]]; [discriminate| |];
          injection Hin as <- <-; congruence.
      * intros [Hin | [Hin | [Hin | []]]]; [discriminate| |];
          injection Hin as <- <-; congruence.
    + intros [Hin | [Hin | []]]; [discriminate|].
      injection Hin as <- <-. congruence.
Qed.

Lemma permission_service_failure_propagates_witness :
  outcome (filterAuthorizedWorkflowIds Sample.broken_world Sample.a_request
             ["wf-A"; "wf-B"])
  = Rejected Sample.unavailable.
Proof.
  apply (proj2 (@permission_service_failure_propagates Sample.broken_world
                  Sample.a_request
                  [{| permission := orchestratorWorkflowPermission |}]
                  Sample.guest Sample.unavailable eq_refl)
               ["wf-A"; "wf-B"]).
  right. left. reflexivity.
Defined.

(** C10. Filtering an overview list.  A result without [overviews] is
    returned as it is, with no effect at all (no credentials lookup, no
    permission evaluation).  A result with [overviews] triggers exactly the
    effects of [filterAuthorizedWorkflowIds] on its workflow ids; when that
    yields the authorized ids, the value returned keeps [paginationInfo]
    and carries the input overviews whose [workflowId] is among the
    authorized ids, in their input order; when that is rejected, so is the
    filter. *)
Theorem filterAuthorizedWorkflows_spec
  (E : Collaborators) (req : HttpRequest)
  (workflows : WorkflowOverviewListResultDTO) :
  match overviews workflows with
  | None =>
      filterAuthorizedWorkflows E req workflows = (Fulfilled workflows, [])
  | Some ovs =>
      let ids := filterAuthorizedWorkflowIds E req (map workflowId ovs) in
      effects (filterAuthorizedWorkflows E req workflows) = effects ids
      /\ match outcome ids with
         | Fulfilled authorized =>
             outcome (filterAuthorizedWorkflows E req workflows)
             = Fulfilled
                 {| overviews :=
                      Some (filter (fun w => includes authorized (workflowId w))
                                   ovs);
                    paginationInfo := paginationInfo workflows |}
         | Rejected e =>
             outcome (filterAuthorizedWorkflows E req workflows) = Rejected e
         end
  end.
Proof.
  unfold filterAuthorizedWorkflows.
  destruct (overviews workflows) as [ovs|]; [|reflexivity].
  cbv zeta. unfold bind, ret, outcome, effects.
  destruct (filterAuthorizedWorkflowIds E req (map workflowId ovs))
    as [[authorized|e] t]; cbn [fst snd].
  - rewrite app_nil_r. split; reflexivity.
  - split; reflexivity.
Qed.

(** ** Handlers, path by path *)

(** Every dispatched request settles normally and keeps the discipline of
    its operation, whatever the collaborators answer: by case analysis on
    every answer the handler waits for. *)
Lemma dispatch_keeps_discipline
  (E : Collaborators) (op : Operation) (req : HttpRequest) :
  keeps_discipline op (handleRequest E op req).
Proof.
  destruct op; unfold_router.
  all: run_paths.
  all: unfold keeps_discipline; split; [reflexivity|].
  all: unfold dispatch_discipline, audit_bracket, authorization_first,
         authorization_before_use, effects;
       repeat (simpl; try reuse_path); reflexivity.
Qed.

(** ** Reading the checks back *)

Lemma Stage_eqb_eq (a b : Stage) : Stage_eqb a b = true -> a = b.
Proof. destruct a, b; simpl; congruence. Qed.

Lemma Status_eqb_eq (a b : Status) : Status_eqb a b = true -> a = b.
Proof. destruct a, b; simpl; congruence. Qed.

Lemma only_UnauthorizedError_eq (errs : list JsError) :
  only_UnauthorizedError errs = true -> errs = [UnauthorizedError].
Proof.
  destruct errs as [|[] [|]]; simpl; congruence.
Qed.

Lemma denial_recorded_seen (t : Trace) :
  denial_recorded true t = true ->
  exists t2 t3,
    t = t2 ++ Next UnauthorizedError :: t3 /\ existsb is_next t2 = false.
Proof.
  induction t as [|e t IH]; simpl; [discriminate|].
  destruct e; simpl;
    try (intros H; destruct (IH H) as (t2 & t3 & -> & Hno);
         eexists (_ :: t2), t3; split; [reflexivity | exact Hno]).
  destruct error; simpl; try discriminate.
  intros _. exists [], t. split; reflexivity.
Qed.

Lemma denial_recorded_sound (t : Trace) :
  denial_recorded false t = true ->
  exists t1 ev t2 t3,
    t = t1 ++ AuditLog ev :: t2 ++ Next UnauthorizedError :: t3
    /\ stage ev = stage_completion
    /\ status ev = failed
    /\ errors ev = [UnauthorizedError]
    /\ existsb is_next (t1 ++ AuditLog ev :: t2) = false.
Proof.
  induction t as [|e t IH]; [discriminate|].
  intros H.
  destruct (is_next e) eqn:Hne.
  { destruct e; discriminate. }
  assert (Hstep : denial_recorded (is_denial_completion e) t = true).
  { destruct e; try exact H. discriminate Hne. }
  destruct (is_denial_completion e) eqn:Hden.
  - destruct e as [ | |ev| | | | ]; try discriminate Hden.
    destruct (denial_recorded_seen t Hstep) as (t2 & t3 & -> & Hno).
    unfold is_denial_completion, audit_with in Hden.
    apply andb_prop in Hden. destruct Hden as [Hden Her].
    apply andb_prop in Hden. destruct Hden as [Hst Hfa].
    exists [], ev, t2, t3. cbn [app existsb is_next orb].
    repeat split; auto using Stage_eqb_eq, Status_eqb_eq,
      only_UnauthorizedError_eq.
  - destruct (IH Hstep) as (t1 & ev & t2 & t3 & -> & Hst & Hfa & Her & Hno).
    exists (e :: t1), ev, t2, t3. cbn [app existsb]. rewrite Hne.
    repeat split; auto.
Qed.

(** ** Dispatched requests *)

(** C4, as amended.  For every dispatched request but [getWorkflowStatuses]
    (open to anyone), a permission evaluation comes before every mutation,
    before every data access other than the reads that resolve what to
    authorize ([v2.getInstanceById], [v2.getWorkflowsOverview],
    [v2.getWorkflowIds]) and before every response of the handler that
    carries workflow data; for the operations gated on the workflow id of
    the path, a permission evaluation comes before every data access. *)
Theorem authorization_precedes_use
  (E : Collaborators) (op : Operation) (req : HttpRequest) :
  op <> getWorkflowStatuses_op ->
  let t := effects (handleRequest E op req) in
  (forall t1 e t2,
     t = t1 ++ e :: t2 ->
     is_mutation e = true
     \/ (is_data_call e = true /\ is_resolving_read e = false)
     \/ returns_workflow_data e = true ->
     exists b, In b t1 /\ is_permission_evaluation b = true)
  /\ (resolves_before_authorizing op = false ->
      forall t1 e t2,
        t = t1 ++ e :: t2 ->
        is_data_call e = true ->
        exists b, In b t1 /\ is_permission_evaluation b = true).
Proof.
  intros Hop t.
  destruct (dispatch_keeps_discipline E op req) as [_ Hd].
  fold t in Hd. unfold dispatch_discipline in Hd.
  apply andb_prop in Hd. destruct Hd as [Hd Hfirst].
  apply andb_prop in Hd. destruct Hd as [_ Huse].
  split.
  - assert (Hbefore : authorization_before_use t = true)
      by (destruct op; try exact Huse; congruence).
    intros t1 e t2 Ht He.
    eapply preceded_sound; [exact Hbefore | exact Ht |]. cbv beta.
    destruct He as [He | [[Hc Hr] | He]].
    + destruct e; try discriminate. destruct c; try discriminate; reflexivity.
    + rewrite Hc, Hr. reflexivity.
    + rewrite He. apply orb_true_r.
  - intros Hres t1 e t2 Ht He.
    rewrite Hres in Hfirst.
    assert (Hf : authorization_first t = true)
      by (destruct op; simpl in Hfirst; try exact Hfirst; congruence).
    eapply preceded_sound; [exact Hf | exact Ht |]. cbv beta.
    rewrite He. reflexivity.
Qed.

Lemma authorization_precedes_use_witness :
  let t := effects (handleRequest Sample.closed_world abortWorkflow_op
                      Sample.a_request) in
  (forall t1 e t2,
     t = t1 ++ e :: t2 ->
     is_mutation e = true
     \/ (is_data_call e = true /\ is_resolving_read e = false)
     \/ returns_workflow_data e = true ->
     exists b, In b t1 /\ is_permission_evaluation b = true)
  /\ (resolves_before_authorizing abortWorkflow_op = false ->
      forall t1 e t2,
        t = t1 ++ e :: t2 ->
        is_data_call e = true ->
        exists b, In b t1 /\ is_permission_evaluation b = true).
Proof.
  apply (@authorization_precedes_use Sample.closed_world abortWorkflow_op
           Sample.a_request).
  discriminate.
Defined.

(** C4 as stated fails: [getWorkflowStatuses] fetches and returns the
    statuses without any permission evaluation, even for a caller to whom
    everything is denied, and [getInstanceById] and [abortWorkflow] fetch
    the instance before the first permission evaluation. *)
Lemma authorization_not_first :
  let run op := handleRequest Sample.closed_world op Sample.a_request in
  authorization_first (effects (run getWorkflowStatuses_op)) = false
  /\ existsb is_permission_evaluation (effects (run getWorkflowStatuses_op))
     = false
  /\ filter (fun e => is_data_call e || is_response e)
            (effects (run getWorkflowStatuses_op))
     = [Call v2_getWorkflowStatuses;
        Respond 200 (body_json (JArray [JString "ACTIVE"]))]
  /\ authorization_first (effects (run getInstanceById_op)) = false
  /\ authorization_first (effects (run abortWorkflow_op)) = false.
Proof. repeat split; reflexivity. Qed.

(** C5, as amended.  Every dispatched request settles normally and keeps
    this bracket: its first effect is the one audit event with stage
    [start]; every other audit event has status [failed] (no event reports
    success at the end); whenever an error is forwarded with [next(error)],
    an audit event with stage [completion] and status [failed] was emitted
    before the forwarding (and after the start event, which comes first);
    and a request answered without forwarding an error and without an error
    status leaves the start event as its only audit event. *)
Theorem audit_bracket_kept
  (E : Collaborators) (op : Operation) (req : HttpRequest) :
  let t := effects (handleRequest E op req) in
  outcome (handleRequest E op req) = Fulfilled tt
  /\ starts_with is_start t = true
  /\ count is_start t = 1
  /\ (forall ev, In (AuditLog ev) t ->
        stage ev = stage_start \/ status ev = failed)
  /\ (forall t1 error t2,
        t = t1 ++ Next error :: t2 ->
        exists ev, In (AuditLog ev) t1
                   /\ stage ev = stage_completion /\ status ev = failed)
  /\ (existsb is_next t = false ->
      existsb is_error_response t = false ->
      count is_audit t = 1).
Proof.
  intros t.
  destruct (dispatch_keeps_discipline E op req) as [Hout Hd].
  fold t in Hd. unfold dispatch_discipline in Hd.
  apply andb_prop in Hd. destruct Hd as [Hd _].
  apply andb_prop in Hd. destruct Hd as [Hb _].
  unfold audit_bracket in Hb.
  apply andb_prop in Hb. destruct Hb as [Hb Honly].
  apply andb_prop in Hb. destruct Hb as [Hb Hnext].
  apply andb_prop in Hb. destruct Hb as [Hb Hfailed].
  apply andb_prop in Hb. destruct Hb as [Hfirst Hone].
  split; [exact Hout|]. split; [exact Hfirst|].
  split; [apply Nat.eqb_eq; exact Hone|].
  split; [|split].
  - intros ev Hin.
    rewrite forallb_forall in Hfailed. specialize (Hfailed _ Hin).
    cbn [is_audit negb orb is_start is_failed audit_with] in Hfailed.
    destruct (Stage_eqb (stage ev) stage_start) eqn:Hst.
    + left. apply Stage_eqb_eq. exact Hst.
    + right. apply Status_eqb_eq. exact Hfailed.
  - intros t1 error t2 Ht.
    destruct (preceded_sound _ _ Hnext t1 (Next error) t2 Ht eq_refl)
      as ([ | |ev| | | | ] & Hin & Hb'); try discriminate Hb'.
    exists ev. split; [exact Hin|].
    unfold is_failed_completion, audit_with in Hb'.
    apply andb_prop in Hb'. destruct Hb' as [Hst Hfa].
    split; [apply Stage_eqb_eq | apply Status_eqb_eq]; assumption.
  - intros Hn Herr. rewrite Hn, Herr in Honly.
    apply Nat.eqb_eq. exact Honly.
Qed.

(** C5 as stated fails on the successful exit: an allowed
    [getWorkflowSourceById] answers 200 and its only audit event is the
    start event, so there is no terminal event; a denied one leaves two
    audit events after the start event. *)
Lemma no_terminal_event_on_success :
  let ok := effects (handleRequest Sample.open_world getWorkflowSourceById_op
                       Sample.a_request) in
  let denied := effects (handleRequest Sample.closed_world
                           getWorkflowSourceById_op Sample.a_request) in
  response_statuses ok = [200]
  /\ count is_terminal ok = 0
  /\ ~ one_start_one_terminal ok
  /\ count is_terminal denied = 2
  /\ ~ one_start_one_terminal denied.
Proof.
  repeat split; try reflexivity.
  - intros (_ & H & _). vm_compute in H. discriminate.
  - intros (_ & H & _). vm_compute in H. discriminate.
Qed.

(** C6. A denial is audited before the request is rejected.  Whenever the
    handler of an operation reaches the Permission Gate with its candidate
    permissions and the gate decides DENY, the trace of the request holds an
    audit event with stage [completion], status [failed] and the
    [UnauthorizedError] as its only error, and this event comes before the
    first [next(error)], which hands that [UnauthorizedError] to the
    transport layer.  (The gate's own event, with stage [authorization],
    comes earlier still.) *)
Theorem denial_is_audited
  (E : Collaborators) (op : Operation) (req : HttpRequest)
  (perms : list BasicPermission) (d : AuthorizePermissionResponse) :
  gate_candidates E op req = Some perms ->
  outcome (authorize E req perms) = Fulfilled d ->
  result d = DENY ->
  exists t1 ev t2 t3,
    effects (handleRequest E op req)
    = t1 ++ AuditLog ev :: t2 ++ Next UnauthorizedError :: t3
    /\ stage ev = stage_completion
    /\ status ev = failed
    /\ errors ev = [UnauthorizedError]
    /\ existsb is_next (t1 ++ AuditLog ev :: t2) = false.
Proof.
  intros Hgate Hout Hdeny. apply denial_recorded_sound.
  destruct op; cbn [gate_candidates] in Hgate; try discriminate Hgate.
  all: try (destruct (getInstanceById E _ _) eqn:Hinst in Hgate;
            [|discriminate Hgate]).
  all: injection Hgate as <-; revert Hout Hdeny; unfold_router.
  all: run_paths.
  all: intros Hout Hdeny;
    first [ reflexivity
          | discriminate Hout
          | injection Hout as <-;
            first [ cbn [result] in Hdeny; congruence
                  | rewrite Hdeny in *; simpl in *; congruence ] ].
Qed.

Lemma denial_is_audited_witness :
  exists t1 ev t2 t3,
    effects (handleRequest Sample.closed_world getInstanceById_op
               Sample.a_request)
    = t1 ++ AuditLog ev :: t2 ++ Next UnauthorizedError :: t3
    /\ stage ev = stage_completion
    /\ status ev = failed
    /\ errors ev = [UnauthorizedError]
    /\ existsb is_next (t1 ++ AuditLog ev :: t2) = false.
Proof.
  apply (@denial_is_audited Sample.closed_world getInstanceById_op
           Sample.a_request
           [orchestratorWorkflowPermission;
            orchestratorWorkflowSpecificPermission "wf-X"]
           {| result := DENY |});
    reflexivity.
Defined.

(** The candidates of [gate_candidates] are the ones the handler uses: the
    effects of [authorize] on them are a segment of the request's trace. *)
Lemma gate_candidates_used
  (E : Collaborators) (op : Operation) (req : HttpRequest)
  (perms : list BasicPermission) :
  gate_candidates E op req = Some perms ->
  exists before after,
    effects (handleRequest E op req)
    = before ++ effects (authorize E req perms) ++ after.
Proof.
  intros Hgate.
  destruct op; cbn [gate_candidates] in Hgate; try discriminate Hgate.
  all: try (destruct (getInstanceById E _ _) eqn:Hinst in Hgate;
            [|discriminate Hgate]).
  all: injection Hgate as <-.
  all: unfold handleRequest, handler, handle_getWorkflowSourceById,
         handle_executeWorkflow, handle_retriggerInstance,
         handle_getWorkflowOverviewById, handle_getWorkflowInputSchemaById,
         handle_getWorkflowInstances, handle_getInstanceById,
         handle_abortWorkflow;
       match goal with
       | |- context [authorize ?w ?r] =>
           remember (authorize w r) as auth eqn:Hauth; clear Hauth
       end;
       unfold_router; repeat (simpl; try reuse_path);
       match goal with
       | f : list BasicPermission -> Async AuthorizePermissionResponse
         |- context [?g ?ps] =>
           constr_eq g f; destruct (f ps) as [[decision|error] t]
       end;
       run_paths; cbn [fst snd app]; rewrite <- ?app_assoc; cbn [app].
  all: first [ eexists [_], _; cbn [app]; reflexivity
             | eexists [_; _], _; cbn [app]; reflexivity ].
Qed.

(** C7. A denied abort.  For an abort request on an instance owned by
    workflow [wfX], from a caller to whom the permission service denies both
    the generic use permission and the use permission specific to [wfX],
    with an error middleware that answers an [UnauthorizedError] with 403:
    the only response is HTTP 403, a failed audit event is emitted (one with
    stage [authorization] recording the 403 and one with stage
    [completion]), and the engine's abort operation is never invoked, nor
    any other mutation. *)
Theorem abort_denied
  (E : Collaborators) (req : HttpRequest) (creds : BackstageCredentials)
  (i : AssessedProcessInstanceDTO) (wfX : string)
  (d1 d2 : AuthorizePermissionResponse) :
  credentials_of E req = Fulfilled creds ->
  getInstanceById E (params_instanceId req) None = Fulfilled i ->
  processId (instance i) = wfX ->
  individual_decision E creds orchestratorWorkflowUsePermission = Some d1 ->
  result d1 = DENY ->
  individual_decision E creds
    (orchestratorWorkflowUseSpecificPermission wfX) = Some d2 ->
  result d2 = DENY ->
  error_status E UnauthorizedError = 403 ->
  let t := effects (handleRequest E abortWorkflow_op req) in
  response_statuses t = [403]
  /\ existsb is_denial_authorization t = true
  /\ existsb is_denial_completion t = true
  /\ existsb is_abort t = false
  /\ existsb is_mutation t = false.
Proof.
  intros Hcreds Hinst HwfX Hd1 Hr1 Hd2 Hr2 H403 t. subst wfX t.
  unfold individual_decision in Hd1, Hd2.
  destruct (permissionsSvc E
              [{| permission := orchestratorWorkflowUsePermission |}] creds)
    as [[|x1 ds1]|] eqn:Hs1; try discriminate Hd1.
  destruct (permissionsSvc E
              [{| permission :=
                   orchestratorWorkflowUseSpecificPermission
                     (processId (instance i)) |}] creds)
    as [[|x2 ds2]|] eqn:Hs2; try discriminate Hd2.
  injection Hd1 as ->. injection Hd2 as ->.
  unfold_router.
  repeat (simpl; rewrite ?Hinst, ?Hcreds, ?Hs1, ?Hs2, ?Hr1, ?Hr2, ?H403).
  repeat split; reflexivity.
Qed.

Lemma abort_denied_witness :
  let t := effects (handleRequest Sample.closed_world abortWorkflow_op
                      Sample.a_request) in
  response_statuses t = [403]
  /\ existsb is_denial_authorization t = true
  /\ existsb is_denial_completion t = true
  /\ existsb is_abort t = false
  /\ existsb is_mutation t = false.
Proof.
  apply (@abort_denied Sample.closed_world Sample.a_request Sample.guest
           Sample.i1 "wf-X" {| result := DENY |} {| result := DENY |});
    reflexivity.
Defined.

(** C8. No input schema.  For an authorized [getWorkflowInputSchemaById]
    request whose workflow info is found with a service URL and whose
    fetched definition has no [dataInputSchema], the handler answers once,
    HTTP 200 with the empty object, forwards no error and never calls
    [fetchInstanceVariables], whatever the [instanceId] query parameter. *)
Theorem no_dataInputSchema_short_circuit
  (E : Collaborators) (req : HttpRequest) (d : AuthorizePermissionResponse)
  (info : WorkflowInfo) (definition : WorkflowDefinition) :
  outcome (authorize E req
             [orchestratorWorkflowPermission;
              orchestratorWorkflowSpecificPermission (params_workflowId req)])
  = Fulfilled d ->
  result d = ALLOW ->
  fetchWorkflowInfo E (params_workflowId req) = Fulfilled (Some info) ->
  truthy_string (serviceUrl info) = true ->
  fetchWorkflowDefinition E (params_workflowId req)
  = Fulfilled (Some definition) ->
  truthy_opt (dataInputSchema definition) = false ->
  let t := effects (handleRequest E getWorkflowInputSchemaById_op req) in
  outcome (handleRequest E getWorkflowInputSchemaById_op req) = Fulfilled tt
  /\ filter is_response t = [Respond 200 (body_json (JObject []))]
  /\ existsb is_fetchInstanceVariables t = false
  /\ existsb is_next t = false.
Proof.
  intros Hout Hallow Hinfo Hurl Hdef Hschema t. subst t.
  revert Hout Hallow. unfold_router.
  repeat (simpl; rewrite ?Hinfo, ?Hurl, ?Hdef, ?Hschema;
          try reuse_path; try split_path).
  all: intros Hout Hallow;
    first [ repeat split; reflexivity
          | discriminate Hout
          | injection Hout as <-;
            first [ cbn [result] in Hallow; congruence
                  | rewrite Hallow in *; simpl in *; congruence ] ].
Qed.

Lemma no_dataInputSchema_short_circuit_witness :
  let t := effects (handleRequest Sample.schemaless_world
                      getWorkflowInputSchemaById_op Sample.a_request) in
  outcome (handleRequest Sample.schemaless_world
             getWorkflowInputSchemaById_op Sample.a_request) = Fulfilled tt
  /\ filter is_response t = [Respond 200 (body_json (JObject []))]
  /\ existsb is_fetchInstanceVariables t = false
  /\ existsb is_next t = false.
Proof.
  apply (@no_dataInputSchema_short_circuit Sample.schemaless_world
           Sample.a_request {| result := ALLOW |}
           {| serviceUrl := Some "http://wf-a"; info_fields := [] |}
           Sample.without_schema);
    reflexivity.
Defined.

(** * Further properties *)

(** ** More on the Permission Gate *)

(** X1. [authorize] asks about every candidate, whatever the answers: once
    the credentials resolve, the permission service is called once per
    candidate, in order, also after a candidate was allowed or a call
    failed; when the credentials lookup fails, no call is made. *)
Theorem authorize_asks_every_candidate
  (E : Collaborators) (req : HttpRequest) (perms : list BasicPermission) :
  effects (authorize E req perms)
  = Credentials req
      :: match credentials_of E req with
         | Fulfilled creds =>
             map (fun p => PermissionsAuthorize [{| permission := p |}] creds)
                 perms
         | Rejected _ => []
         end.
Proof.
  destruct (credentials_of E req) as [creds|e] eqn:Hcreds.
  - rewrite (authorize_unfold E req Hcreds perms). reflexivity.
  - unfold authorize, credentials, await, bind, effects.
    rewrite Hcreds. reflexivity.
Qed.

Section MalformedAnswers.

Variable E : Collaborators.
Variable req : HttpRequest.
Variable creds : BackstageCredentials.
Hypothesis Hcreds : credentials_of E req = Fulfilled creds.

Lemma all_settled_answered (perms : list BasicPermission) :
  forallb (answered E creds) perms = true ->
  exists rs,
    all_settled
      (map (fun p => permissionsSvc E [{| permission := p |}] creds) perms)
    = Fulfilled rs
    /\ map (fun d => nth_error d 0) rs
       = map (individual_decision E creds) perms.
Proof.
  induction perms as [|p perms IH]; cbn [map forallb all_settled]; intros H.
  - exists []. split; reflexivity.
  - apply andb_prop in H. destruct H as [Hp Hrest].
    destruct (IH Hrest) as [rs [Hrs Hmap]].
    unfold answered in Hp.
    destruct (permissionsSvc E [{| permission := p |}] creds)
      as [ds|e] eqn:Hsvc; [|discriminate Hp].
    rewrite Hrs. exists (ds :: rs). split; [reflexivity|].
    cbn [map]. rewrite Hmap. f_equal.
    unfold individual_decision. rewrite Hsvc. reflexivity.
Qed.

(** The search stops at the first candidate that is not decided DENY. *)
Lemma Array_find_stops (before after : list BasicPermission)
  (p : BasicPermission) :
  (forall q, In q before ->
     exists b, individual_decision E creds q = Some b /\ result b = DENY) ->
  Array_find result_is_ALLOW
    (map (individual_decision E creds) (before ++ p :: after))
  = match individual_decision E creds p with
    | None => Rejected reading_result_of_undefined
    | Some a =>
        if AuthorizeResult_eqb (result a) ALLOW
        then Fulfilled (Some (Some a))
        else Array_find result_is_ALLOW
               (map (individual_decision E creds) after)
    end.
Proof.
  induction before as [|x before IH]; intros Hbefore.
  - cbn [app map Array_find].
    destruct (individual_decision E creds p) as [a|]; cbn [result_is_ALLOW];
      [|reflexivity].
    destruct (AuthorizeResult_eqb (result a) ALLOW); reflexivity.
  - cbn [app map Array_find].
    destruct (Hbefore x (or_introl eq_refl)) as (b & Hb & Hbd).
    rewrite Hb. cbn [result_is_ALLOW]. rewrite Hbd.
    cbn [AuthorizeResult_eqb].
    apply IH. intros q Hq. apply Hbefore. right. exact Hq.
Qed.

Lemma authorize_at_first_undenied (before after : list BasicPermission)
  (p : BasicPermission) :
  forallb (answered E creds) (before ++ p :: after) = true ->
  (forall q, In q before ->
     exists b, individual_decision E creds q = Some b /\ result b = DENY) ->
  outcome (authorize E req (before ++ p :: after))
  = match individual_decision E creds p with
    | None => Rejected reading_result_of_undefined
    | Some a =>
        if AuthorizeResult_eqb (result a) ALLOW
        then Fulfilled a
        else outcome (authorize E req after)
    end.
Proof.
  intros Hans Hbefore.
  assert (Hafter : forallb (answered E creds) after = true).
  { rewrite forallb_app in Hans. apply andb_prop in Hans.
    destruct Hans as [_ Hans]. cbn [forallb] in Hans.
    apply andb_prop in Hans. apply Hans. }
  rewrite (authorize_unfold E req Hcreds (before ++ p :: after)).
  rewrite (authorize_unfold E req Hcreds after).
  unfold outcome. cbn [fst].
  destruct (all_settled_answered _ Hans) as [rs [Hrs Hmap]].
  destruct (all_settled_answered _ Hafter) as [rs' [Hrs' Hmap']].
  rewrite Hrs, Hmap, Hrs', Hmap'.
  rewrite (Array_find_stops before after p Hbefore).
  destruct (individual_decision E creds p) as [a|]; [|reflexivity].
  destruct (AuthorizeResult_eqb (result a) ALLOW); reflexivity.
Qed.

End MalformedAnswers.

(** X2. An empty answer met before any ALLOW makes [authorize] throw.  When
    every call is answered, the candidates before [p] are all decided DENY
    and the answer for [p] is an empty batch, [authorize] is rejected with
    the [TypeError] of reading [result] of [undefined], whatever the
    candidates after [p] are granted. *)
Theorem authorize_empty_answer_throws
  (E : Collaborators) (req : HttpRequest) (creds : BackstageCredentials)
  (before after : list BasicPermission) (p : BasicPermission) :
  credentials_of E req = Fulfilled creds ->
  forallb (answered E creds) (before ++ p :: after) = true ->
  (forall q, In q before ->
     exists b, individual_decision E creds q = Some b /\ result b = DENY) ->
  permissionsSvc E [{| permission := p |}] creds = Fulfilled [] ->
  outcome (authorize E req (before ++ p :: after))
  = Rejected reading_result_of_undefined.
Proof.
  intros Hcreds Hans Hbefore Hempty.
  rewrite (authorize_at_first_undenied E req Hcreds before after p Hans Hbefore).
  unfold individual_decision. rewrite Hempty. reflexivity.
Qed.

(** X3. The first ALLOW wins over anything after it that was answered.
    When every call is answered, the candidates before [p] are all decided
    DENY and [p] is decided ALLOW, [authorize] returns the decision on [p];
    the answers for the candidates after [p], empty ones included, are not
    inspected. *)
Theorem authorize_first_allow_wins
  (E : Collaborators) (req : HttpRequest) (creds : BackstageCredentials)
  (before after : list BasicPermission) (p : BasicPermission)
  (a : AuthorizePermissionResponse) :
  credentials_of E req = Fulfilled creds ->
  forallb (answered E creds) (before ++ p :: after) = true ->
  (forall q, In q before ->
     exists b, individual_decision E creds q = Some b /\ result b = DENY) ->
  individual_decision E creds p = Some a ->
  result a = ALLOW ->
  outcome (authorize E req (before ++ p :: after)) = Fulfilled a.
Proof.
  intros Hcreds Hans Hbefore Hp Ha.
  rewrite (authorize_at_first_undenied E req Hcreds before after p Hans Hbefore).
  rewrite Hp, Ha. reflexivity.
Qed.

Lemma authorize_empty_answer_throws_witness :
  outcome (authorize Variants.forgetful_world Sample.a_request
             ([orchestratorWorkflowPermission]
                ++ orchestratorWorkflowSpecificPermission "wf-A"
                :: [orchestratorWorkflowUsePermission]))
  = Rejected reading_result_of_undefined.
Proof.
  apply (@authorize_empty_answer_throws Variants.forgetful_world
           Sample.a_request Sample.guest
           [orchestratorWorkflowPermission]
           [orchestratorWorkflowUsePermission]
           (orchestratorWorkflowSpecificPermission "wf-A"));
    try reflexivity.
  intros q [<- | []]. exists {| result := DENY |}. split; reflexivity.
Defined.

Lemma authorize_first_allow_wins_witness :
  outcome (authorize Variants.forgetful_world Sample.a_request
             ([orchestratorWorkflowPermission]
                ++ orchestratorWorkflowUsePermission
                :: [orchestratorWorkflowSpecificPermission "wf-A"]))
  = Fulfilled {| result := ALLOW |}.
Proof.
  apply (@authorize_first_allow_wins Variants.forgetful_world
           Sample.a_request Sample.guest
           [orchestratorWorkflowPermission]
           [orchestratorWorkflowSpecificPermission "wf-A"]
           orchestratorWorkflowUsePermission {| result := ALLOW |});
    try reflexivity.
  intros q [<- | []]. exists {| result := DENY |}. split; reflexivity.
Defined.

(** X4. Batching.  Whatever the number of ids and whatever the permission
    service answers, [filterAuthorizedWorkflowIds] looks the credentials up
    once and calls the permission service at most twice. *)
Theorem filterAuthorizedWorkflowIds_two_calls
  (E : Collaborators) (req : HttpRequest) (W : list string) :
  count is_credentials (effects (filterAuthorizedWorkflowIds E req W)) = 1
  /\ count is_permission_evaluation
       (effects (filterAuthorizedWorkflowIds E req W)) <= 2.
Proof.
  unfold filterAuthorizedWorkflowIds, credentials, permissionsSvc_authorize,
    await, bind, effects.
  destruct (credentials_of E req) as [creds|e]; cbn [snd];
    [|split; [reflexivity | cbn; lia]].
  destruct (permissionsSvc E _ creds) as [gs|e]; cbn [snd app];
    [|split; [reflexivity | cbn; lia]].
  destruct (result_is_ALLOW (nth_error gs 0)) as [[|]|e]; cbn [snd app];
    try (split; [reflexivity | cbn; lia]).
  destruct (permissionsSvc E _ creds) as [ds|e]; cbn [snd app];
    split; try reflexivity; cbn; lia.
Qed.

Lemma subsequence_weaken (W : list string) :
  (forall l x, subsequence l W = true -> subsequence l (x :: W) = true)
  /\ (forall y l, subsequence (y :: l) W = true -> subsequence l W = true).
Proof.
  induction W as [|w W [IHskip IHtail]].
  - split.
    + intros [|y l] x H; [reflexivity | discriminate H].
    + intros y l H. discriminate H.
  - assert (Htail : forall y l, subsequence (y :: l) (w :: W) = true ->
                                subsequence l (w :: W) = true).
    { intros y l H. cbn [subsequence] in H.
      destruct (String.eqb y w); apply IHskip; [exact H|].
      apply (IHtail y). exact H. }
    split; [|exact Htail].
    intros [|y l] x H; [reflexivity|].
    change (subsequence (y :: l) (x :: w :: W))
      with (if String.eqb y x then subsequence l (w :: W)
            else subsequence (y :: l) (w :: W)).
    destruct (String.eqb y x); [|exact H].
    apply (Htail y). exact H.
Qed.

Lemma subsequence_skip (l : list string) (x : string) (W : list string) :
  subsequence l W = true -> subsequence l (x :: W) = true.
Proof. apply subsequence_weaken. Qed.

Lemma Array_filter_from_subsequence
  (p : string -> nat -> Settled bool) (W : list string) :
  forall idx l,
    Array_filter_from p idx W = Fulfilled l -> subsequence l W = true.
Proof.
  induction W as [|w W IH]; intros idx l H; cbn [Array_filter_from] in H.
  - injection H as <-. reflexivity.
  - destruct (p w idx) as [b|e]; [|discriminate H].
    destruct (Array_filter_from p (S idx) W) as [l'|e] eqn:Hrest;
      [|discriminate H].
    injection H as <-. specialize (IH _ _ Hrest).
    destruct b.
    + cbn [subsequence]. rewrite String.eqb_refl. exact IH.
    + apply subsequence_skip. exact IH.
Qed.

Lemma subsequence_refl (W : list string) : subsequence W W = true.
Proof.
  induction W as [|w W IH]; [reflexivity|].
  cbn [subsequence]. rewrite String.eqb_refl. exact IH.
Qed.

(** X5. Whatever the permission service answers, the ids that
    [filterAuthorizedWorkflowIds] returns are ids of the input, in input
    order: nothing is added, nothing is reordered. *)
Theorem filterAuthorizedWorkflowIds_subsequence
  (E : Collaborators) (req : HttpRequest) (W ids : list string) :
  outcome (filterAuthorizedWorkflowIds E req W) = Fulfilled ids ->
  subsequence ids W = true.
Proof.
  unfold filterAuthorizedWorkflowIds, credentials, permissionsSvc_authorize,
    await, bind, outcome, Array_filter.
  destruct (credentials_of E req) as [creds|e]; cbn [fst]; [|discriminate].
  destruct (permissionsSvc E _ creds) as [gs|e]; cbn [fst]; [|discriminate].
  destruct (result_is_ALLOW (nth_error gs 0)) as [[|]|e]; cbn [fst];
    try discriminate.
  - intros H. injection H as <-. apply subsequence_refl.
  - destruct (permissionsSvc E _ creds) as [ds|e]; cbn [fst];
      [|discriminate].
    apply Array_filter_from_subsequence.
Qed.

Lemma filterAuthorizedWorkflowIds_subsequence_witness :
  subsequence ["wf-A"; "wf-A"] ["wf-B"; "wf-A"; "wf-C"; "wf-A"] = true.
Proof.
  apply (@filterAuthorizedWorkflowIds_subsequence Sample.wfA_world
           Sample.a_request ["wf-B"; "wf-A"; "wf-C"; "wf-A"]
           ["wf-A"; "wf-A"]).
  reflexivity.
Defined.

Section BatchAnswers.

Variable E : Collaborators.
Variable req : HttpRequest.
Variable creds : BackstageCredentials.
Variable W : list string.
Variable gs ds : list AuthorizePermissionResponse.
Hypothesis Hcreds : credentials_of E req = Fulfilled creds.
Hypothesis Hgen :
  permissionsSvc E [{| permission := orchestratorWorkflowPermission |}] creds
  = Fulfilled gs.
Hypothesis Hdeny : result_is_ALLOW (nth_error gs 0) = Fulfilled false.
Hypothesis Hbatch :
  permissionsSvc E
    (map (fun w => {| permission := orchestratorWorkflowSpecificPermission w |})
         W) creds
  = Fulfilled ds.

(** With the generic permission not allowed, the outcome is that of the
    index filter over the batch. *)
Lemma filterAuthorizedWorkflowIds_batch :
  outcome (filterAuthorizedWorkflowIds E req W)
  = Array_filter_from
      (fun (_ : string) idx => result_is_ALLOW (nth_error ds idx)) 0 W.
Proof.
  unfold filterAuthorizedWorkflowIds, credentials, permissionsSvc_authorize,
    await, bind, outcome, Array_filter.
  rewrite Hcreds, Hgen, Hdeny, Hbatch. reflexivity.
Qed.

End BatchAnswers.

Lemma Array_filter_positions (W : list string) :
  forall (seen ds : list AuthorizePermissionResponse),
    length W <= length ds ->
    Array_filter_from
      (fun (_ : string) idx => result_is_ALLOW (nth_error (seen ++ ds) idx))
      (length seen) W
    = Fulfilled (allowed_positions W ds).
Proof.
  induction W as [|w W IH]; intros seen ds Hlen; [reflexivity|].
  destruct ds as [|d ds]; [cbn in Hlen; lia|].
  cbn [Array_filter_from].
  rewrite nth_error_app2 by lia. rewrite Nat.sub_diag.
  cbn [nth_error result_is_ALLOW].
  specialize (IH (seen ++ [d]) ds).
  rewrite <- app_assoc in IH. cbn [app] in IH.
  rewrite length_app in IH. cbn [length] in IH. rewrite Nat.add_1_r in IH.
  rewrite IH by (cbn in Hlen; lia).
  unfold allowed_positions. cbn [combine filter snd].
  destruct (AuthorizeResult_eqb (result d) ALLOW); reflexivity.
Qed.

Lemma Array_filter_short (W : list string) :
  forall (seen ds : list AuthorizePermissionResponse),
    length ds < length W ->
    Array_filter_from
      (fun (_ : string) idx => result_is_ALLOW (nth_error (seen ++ ds) idx))
      (length seen) W
    = Rejected reading_result_of_undefined.
Proof.
  induction W as [|w W IH]; intros seen ds Hlen; [cbn in Hlen; lia|].
  cbn [Array_filter_from].
  rewrite nth_error_app2 by lia. rewrite Nat.sub_diag.
  destruct ds as [|d ds]; [reflexivity|].
  cbn [nth_error result_is_ALLOW].
  specialize (IH (seen ++ [d]) ds).
  rewrite <- app_assoc in IH. cbn [app] in IH.
  rewrite length_app in IH. cbn [length] in IH. rewrite Nat.add_1_r in IH.
  rewrite IH by (cbn in Hlen; lia). reflexivity.
Qed.

(** X6. The batch is read by position.  When the generic permission is not
    allowed and the batch holds at least one decision per id, the ids
    returned are those at the positions the batch allows: an id that occurs
    twice is kept or dropped occurrence by occurrence, and decisions beyond
    the last id are ignored. *)
Theorem filterAuthorizedWorkflowIds_by_position
  (E : Collaborators) (req : HttpRequest) (creds : BackstageCredentials)
  (W : list string) (gs ds : list AuthorizePermissionResponse) :
  credentials_of E req = Fulfilled creds ->
  permissionsSvc E [{| permission := orchestratorWorkflowPermission |}] creds
  = Fulfilled gs ->
  result_is_ALLOW (nth_error gs 0) = Fulfilled false ->
  permissionsSvc E
    (map (fun w => {| permission := orchestratorWorkflowSpecificPermission w |})
         W) creds
  = Fulfilled ds ->
  length W <= length ds ->
  outcome (filterAuthorizedWorkflowIds E req W)
  = Fulfilled (allowed_positions W ds).
Proof.
  intros Hcreds Hgen Hdeny Hbatch Hlen.
  rewrite (filterAuthorizedWorkflowIds_batch E req W Hcreds Hgen Hdeny Hbatch).
  apply (Array_filter_positions W [] ds Hlen).
Qed.

Lemma filterAuthorizedWorkflowIds_by_position_witness :
  outcome (filterAuthorizedWorkflowIds Variants.alternating_world
             Sample.a_request ["wf-A"; "wf-A"; "wf-B"])
  = Fulfilled ["wf-A"; "wf-B"].
Proof.
  apply (@filterAuthorizedWorkflowIds_by_position Variants.alternating_world
           Sample.a_request Sample.guest ["wf-A"; "wf-A"; "wf-B"]
           [{| result := DENY |}]
           [{| result := ALLOW |}; {| result := DENY |};
            {| result := ALLOW |}]);
    try reflexivity; cbn; lia.
Defined.

(** X7. A batch that is too short makes the filter throw.  When the generic
    permission is not allowed and the batch holds fewer decisions than
    there are ids, [filterAuthorizedWorkflowIds] is rejected with the
    [TypeError] of reading [result] of [undefined]; no partial list is
    returned. *)
Theorem filterAuthorizedWorkflowIds_short_batch
  (E : Collaborators) (req : HttpRequest) (creds : BackstageCredentials)
  (W : list string) (gs ds : list AuthorizePermissionResponse) :
  credentials_of E req = Fulfilled creds ->
  permissionsSvc E [{| permission := orchestratorWorkflowPermission |}] creds
  = Fulfilled gs ->
  result_is_ALLOW (nth_error gs 0) = Fulfilled false ->
  permissionsSvc E
    (map (fun w => {| permission := orchestratorWorkflowSpecificPermission w |})
         W) creds
  = Fulfilled ds ->
  length ds < length W ->
  outcome (filterAuthorizedWorkflowIds E req W)
  = Rejected reading_result_of_undefined.
Proof.
  intros Hcreds Hgen Hdeny Hbatch Hlen.
  rewrite (filterAuthorizedWorkflowIds_batch E req W Hcreds Hgen Hdeny Hbatch).
  apply (Array_filter_short W [] ds Hlen).
Qed.

Lemma filterAuthorizedWorkflowIds_short_batch_witness :
  outcome (filterAuthorizedWorkflowIds Variants.short_world Sample.a_request
             ["wf-A"; "wf-B"])
  = Rejected reading_result_of_undefined.
Proof.
  apply (@filterAuthorizedWorkflowIds_short_batch Variants.short_world
           Sample.a_request Sample.guest ["wf-A"; "wf-B"]
           [{| result := DENY |}] [{| result := ALLOW |}]);
    try reflexivity; cbn; lia.
Defined.

(** X8. An empty answer to the generic question makes the filter throw
    before the batch is asked: the only permission call is the generic
    one. *)
Theorem filterAuthorizedWorkflowIds_empty_generic
  (E : Collaborators) (req : HttpRequest) (creds : BackstageCredentials)
  (W : list string) :
  credentials_of E req = Fulfilled creds ->
  permissionsSvc E [{| permission := orchestratorWorkflowPermission |}] creds
  = Fulfilled [] ->
  filterAuthorizedWorkflowIds E req W
  = (Rejected reading_result_of_undefined,
     [Credentials req;
      PermissionsAuthorize
        [{| permission := orchestratorWorkflowPermission |}] creds]).
Proof.
  intros Hcreds Hgen.
  unfold filterAuthorizedWorkflowIds, credentials, permissionsSvc_authorize,
    await, bind.
  rewrite Hcreds, Hgen. reflexivity.
Qed.

Lemma filterAuthorizedWorkflowIds_empty_generic_witness :
  filterAuthorizedWorkflowIds
    (Sample.world (fun _ _ => Fulfilled []) Sample.with_schema)
    Sample.a_request ["wf-A"]
  = (Rejected reading_result_of_undefined,
     [Credentials Sample.a_request;
      PermissionsAuthorize
        [{| permission := orchestratorWorkflowPermission |}] Sample.guest]).
Proof.
  apply (@filterAuthorizedWorkflowIds_empty_generic
           (Sample.world (fun _ _ => Fulfilled []) Sample.with_schema)
           Sample.a_request Sample.guest ["wf-A"]);
    reflexivity.
Defined.

(** ** Filtering overviews, end to end *)

Lemma includes_own_id (ovs : list WorkflowOverviewDTO) (w : WorkflowOverviewDTO) :
  In w ovs -> includes (map workflowId ovs) (workflowId w) = true.
Proof.
  intros Hin. unfold includes. apply existsb_exists.
  exists (workflowId w). split; [apply in_map; exact Hin|].
  apply String.eqb_refl.
Qed.

Lemma filter_all (A : Type) (p : A -> bool) (l : list A) :
  (forall x, In x l -> p x = true) -> filter p l = l.
Proof.
  induction l as [|x l IH]; intros H; [reflexivity|].
  cbn [filter]. rewrite (H x (or_introl eq_refl)). f_equal.
  apply IH. intros y Hy. apply H. right. exact Hy.
Qed.

Lemma includes_filter (S : string -> bool) (ids : list string) (k : string) :
  includes (filter S ids) k = S k && includes ids k.
Proof.
  unfold includes. induction ids as [|x ids IH].
  - cbn. rewrite andb_false_r. reflexivity.
  - cbn [filter existsb]. destruct (String.eqb_spec k x) as [<-|Hne].
    + destruct (S k); cbn [existsb orb andb].
      * rewrite String.eqb_refl. reflexivity.
      * rewrite IH. reflexivity.
    + destruct (S x); cbn [existsb orb].
      * apply String.eqb_neq in Hne. rewrite Hne. exact IH.
      * exact IH.
Qed.

(** X9. A caller with the generic read permission gets the overview result
    back as it is: [filterAuthorizedWorkflows] returns its input unchanged,
    whether it has [overviews] or not. *)
Theorem filterAuthorizedWorkflows_generic
  (E : Collaborators) (req : HttpRequest) (creds : BackstageCredentials)
  (workflows : WorkflowOverviewListResultDTO)
  (d : AuthorizePermissionResponse)
  (rest : list AuthorizePermissionResponse) :
  credentials_of E req = Fulfilled creds ->
  permissionsSvc E [{| permission := orchestratorWorkflowPermission |}] creds
  = Fulfilled (d :: rest) ->
  result d = ALLOW ->
  outcome (filterAuthorizedWorkflows E req workflows) = Fulfilled workflows.
Proof.
  intros Hcreds Hgen Hallow.
  destruct workflows as [[ovs|] pagination]; [|reflexivity].
  unfold filterAuthorizedWorkflows, filterAuthorizedWorkflowIds, credentials,
    permissionsSvc_authorize, await, bind, ret, outcome.
  cbn [overviews paginationInfo].
  rewrite Hcreds, Hgen. cbn [nth_error result_is_ALLOW]. rewrite Hallow.
  cbn [AuthorizeResult_eqb fst]. f_equal. f_equal. f_equal.
  apply filter_all. intros w Hw. apply includes_own_id. exact Hw.
Qed.

Lemma filterAuthorizedWorkflows_generic_witness :
  outcome (filterAuthorizedWorkflows Sample.open_world Sample.a_request
             {| overviews := Some [Sample.wfB; Sample.wfA; Sample.wfB];
                paginationInfo := None |})
  = Fulfilled {| overviews := Some [Sample.wfB; Sample.wfA; Sample.wfB];
                 paginationInfo := None |}.
Proof.
  apply (@filterAuthorizedWorkflows_generic Sample.open_world Sample.a_request
           Sample.guest _ {| result := ALLOW |} []);
    reflexivity.
Defined.

(** X10. A caller with specific grants only gets exactly the overviews of
    the granted workflows.  When the generic permission is denied and the
    batch allows exactly the ids selected by [S], the result keeps
    [paginationInfo] and the overviews whose [workflowId] is selected by
    [S], every occurrence, in input order. *)
Theorem filterAuthorizedWorkflows_specific
  (E : Collaborators) (req : HttpRequest) (creds : BackstageCredentials)
  (ovs : list WorkflowOverviewDTO) (pagination : option JsonValue)
  (S : string -> bool) (d : AuthorizePermissionResponse)
  (rest ds : list AuthorizePermissionResponse) :
  credentials_of E req = Fulfilled creds ->
  permissionsSvc E [{| permission := orchestratorWorkflowPermission |}] creds
  = Fulfilled (d :: rest) ->
  result d = DENY ->
  permissionsSvc E
    (map (fun w => {| permission := orchestratorWorkflowSpecificPermission w |})
         (map workflowId ovs)) creds
  = Fulfilled ds ->
  map result ds
  = map (fun w => if S w then ALLOW else DENY) (map workflowId ovs) ->
  outcome (filterAuthorizedWorkflows E req
             {| overviews := Some ovs; paginationInfo := pagination |})
  = Fulfilled {| overviews := Some (filter (fun w => S (workflowId w)) ovs);
                 paginationInfo := pagination |}.
Proof.
  intros Hcreds Hgen Hdeny Hbatch Hds.
  unfold filterAuthorizedWorkflows, filterAuthorizedWorkflowIds, credentials,
    permissionsSvc_authorize, await, bind, ret, outcome, Array_filter.
  cbn [overviews paginationInfo].
  rewrite Hcreds, Hgen. cbn [nth_error result_is_ALLOW]. rewrite Hdeny.
  cbn [AuthorizeResult_eqb]. rewrite Hbatch.
  pose proof (Array_filter_batch S (map workflowId ovs) [] ds Hds) as Hfilter.
  cbn [app length] in Hfilter. rewrite Hfilter. cbn [fst].
  f_equal. f_equal. f_equal.
  apply filter_ext_in. intros w Hw.
  rewrite includes_filter, (includes_own_id ovs w Hw). apply andb_true_r.
Qed.

Lemma filterAuthorizedWorkflows_specific_witness :
  outcome (filterAuthorizedWorkflows Sample.wfA_world Sample.a_request
             {| overviews := Some [Sample.wfB; Sample.wfA; Sample.wfA];
                paginationInfo := Some (JNumber 3) |})
  = Fulfilled {| overviews := Some [Sample.wfA; Sample.wfA];
                 paginationInfo := Some (JNumber 3) |}.
Proof.
  apply (@filterAuthorizedWorkflows_specific Sample.wfA_world Sample.a_request
           Sample.guest [Sample.wfB; Sample.wfA; Sample.wfA]
           (Some (JNumber 3)) (String.eqb "wf-A")
           {| result := DENY |} []
           [{| result := DENY |}; {| result := ALLOW |};
            {| result := ALLOW |}]);
    reflexivity.
Defined.

(** ** The data sent along with an input schema *)


Lemma keys_set_field (k : string) (v : JsonValue) (obj : JsonObject) :
  map fst (set_field k v obj)
  = if has_field k obj then map fst obj else map fst obj ++ [k].
Proof.
  unfold has_field.
  induction obj as [|[x y] obj IH]; cbn [set_field get_field map fst app];
    [reflexivity|].
  destruct (String.eqb_spec k x) as [->|Hne]; [reflexivity|].
  cbn [map fst]. rewrite IH.
  destruct (get_field k obj); reflexivity.
Qed.

Lemma has_field_In (k : string) (obj : JsonObject) :
  has_field k obj = false -> ~ In k (map fst obj).
Proof.
  unfold has_field. induction obj as [|[x y] obj IH]; cbn [get_field map fst];
    intros H; [intros []|].
  destruct (String.eqb_spec k x) as [->|Hne]; [discriminate H|].
  intros [Heq | Hin]; [congruence | exact (IH H Hin)].
Qed.

Section PickInputData.

Variable workflowData : JsonObject.



Lemma fold_step_shape (ks : list string) :
  forall acc : JsonObject,
    NoDup (map fst acc) ->
    Forall (fun kv => truthy (snd kv) = true) acc ->
    NoDup (map fst (fold_left (pick_step workflowData) ks acc))
    /\ Forall (fun kv => truthy (snd kv) = true) (fold_left (pick_step workflowData) ks acc).
Proof.
  induction ks as [|x ks IH]; intros acc Hnd Hall; cbn [fold_left];
    [split; assumption|].
  apply IH; unfold pick_step;
    destruct (get_field x workflowData) as [v|]; try assumption;
    destruct (truthy v) eqn:Hv; try assumption.
  - rewrite keys_set_field.
    destruct (has_field x acc) eqn:Hhas; [exact Hnd|].
    apply NoDup_app; [exact Hnd | repeat constructor; intros [] | ].
    intros k Hk [<- | []]. exact (has_field_In _ _ Hhas Hk).
  - clear Hnd. induction acc as [|[a b] acc IHacc]; cbn [set_field].
    + constructor; [exact Hv | constructor].
    + inversion Hall as [|? ? Hab Hrest]; subst.
      destruct (String.eqb x a).
      * constructor; [exact Hv | exact Hrest].
      * constructor; [exact Hab | apply IHacc; exact Hrest].
Qed.

End PickInputData.



(** X12. The object built for [data] has no key twice and no falsy
    value. *)
Theorem pick_inputData_shape
  (inputSchemaProps : JsonValue) (workflowData : JsonObject) :
  NoDup (map fst (pick_inputData inputSchemaProps workflowData))
  /\ Forall (fun kv => truthy (snd kv) = true)
            (pick_inputData inputSchemaProps workflowData).
Proof.
  unfold pick_inputData.
  change (fun result k =>
            match get_field k workflowData with
            | Some v => if truthy v then set_field k v result else result
            | None => result
            end)
    with (pick_step workflowData).
  apply fold_step_shape; constructor.
Qed.

(** ** Habits of every dispatched request *)

(** Every dispatched request keeps the habits of its operation, whatever
    the collaborators answer. *)
Lemma dispatch_keeps_habits
  (E : Collaborators) (op : Operation) (req : HttpRequest) :
  keeps_habits op (handleRequest E op req).
Proof.
  destruct op; unfold_router.
  all: run_paths.
  all: unfold keeps_habits, dispatch_habits, effects;
       repeat (simpl; try reuse_path); reflexivity.
Qed.

(** X13. A request forwards at most one error: [next(error)] is called at
    most once per dispatched request, whatever fails. *)
Theorem at_most_one_next
  (E : Collaborators) (op : Operation) (req : HttpRequest) :
  count is_next (effects (handleRequest E op req)) <= 1.
Proof.
  habits (dispatch_keeps_habits E op req). apply Nat.leb_le. assumption.
Qed.

(** X14. A request costs at most one credentials lookup and at most two
    permission calls, whatever the operation and however many workflows
    there are. *)
Theorem bounded_permission_traffic
  (E : Collaborators) (op : Operation) (req : HttpRequest) :
  count is_credentials (effects (handleRequest E op req)) <= 1
  /\ count is_permission_evaluation (effects (handleRequest E op req)) <= 2.
Proof.
  habits (dispatch_keeps_habits E op req). split; apply Nat.leb_le; assumption.
Qed.

(** X15. Mutations are rare and guarded: a request calls an engine mutation
    ([v2.executeWorkflow], [v2.retriggerInstance], [v2.abortWorkflow]) at
    most once; the eight read operations never call one; and a request
    that called one has recorded no denial. *)
Theorem mutations_are_guarded
  (E : Collaborators) (op : Operation) (req : HttpRequest) :
  let t := effects (handleRequest E op req) in
  count is_mutation t <= 1
  /\ (mutating op = false -> existsb is_mutation t = false)
  /\ (existsb is_mutation t = true ->
      existsb is_authorization_stage t = false).
Proof.
  intros t. subst t. habits (dispatch_keeps_habits E op req).
  split; [apply Nat.leb_le; assumption|].
  split.
  - intros Hop.
    match goal with
    | H : mutating op || _ = true |- _ =>
        rewrite Hop in H; apply negb_true_iff in H; exact H
    end.
  - intros Hmut.
    match goal with
    | H : negb (existsb is_mutation _) || _ = true |- _ =>
        rewrite Hmut in H; apply negb_true_iff in H; exact H
    end.
Qed.

Lemma denial_closes_sound (t : Trace) :
  denial_closes t = true ->
  existsb is_authorization_stage t = true ->
  exists t1 ev t2,
    t = t1 ++ AuditLog ev :: t2
    /\ existsb is_authorization_stage t1 = false
    /\ is_denial_authorization (AuditLog ev) = true
    /\ Forall (fun e => after_denial_allowed e = true) t2
    /\ In (Next UnauthorizedError) t2.
Proof.
  induction t as [|e t IH]; intros Hc He; [discriminate He|].
  cbn [denial_closes existsb] in Hc, He.
  destruct (is_authorization_stage e) eqn:Hst.
  - apply andb_prop in Hc. destruct Hc as [Hc Hnext].
    apply andb_prop in Hc. destruct Hc as [Hden Hall].
    destruct e as [ | |ev| | | | ]; try discriminate Hst.
    exists [], ev, t. repeat split; auto.
    + apply Forall_forall. apply forallb_forall. exact Hall.
    + apply existsb_exists in Hnext. destruct Hnext as ([] & Hin & Hx);
        try discriminate Hx.
      destruct error; try discriminate Hx. exact Hin.
  - cbn [orb] in He.
    destruct (IH Hc He) as (t1 & ev & t2 & -> & Hno & Hden & Hall & Hin).
    exists (e :: t1), ev, t2. cbn [existsb app]. rewrite Hst.
    repeat split; auto.
Qed.

(** X16. A recorded denial closes the request.  If a request's trace holds
    an audit event with stage [authorization], then the first such event
    records status [failed], a 403 and the [UnauthorizedError]; everything
    that follows it is logging, a failed audit event carrying that error,
    its forwarding and the middleware's answer to it; in particular no
    data access, no mutation and no answer of the handler follows, and the
    [UnauthorizedError] is forwarded with [next]. *)
Theorem denial_closes_the_request
  (E : Collaborators) (op : Operation) (req : HttpRequest) :
  existsb is_authorization_stage (effects (handleRequest E op req)) = true ->
  exists t1 ev t2,
    effects (handleRequest E op req) = t1 ++ AuditLog ev :: t2
    /\ existsb is_authorization_stage t1 = false
    /\ is_denial_authorization (AuditLog ev) = true
    /\ Forall (fun e => after_denial_allowed e = true) t2
    /\ In (Next UnauthorizedError) t2.
Proof.
  intros Hden. habits (dispatch_keeps_habits E op req).
  apply denial_closes_sound; assumption.
Qed.

Lemma denial_closes_the_request_witness :
  exists t1 ev t2,
    effects (handleRequest Sample.closed_world executeWorkflow_op
               Sample.a_request) = t1 ++ AuditLog ev :: t2
    /\ existsb is_authorization_stage t1 = false
    /\ is_denial_authorization (AuditLog ev) = true
    /\ Forall (fun e => after_denial_allowed e = true) t2
    /\ In (Next UnauthorizedError) t2.
Proof.
  apply (@denial_closes_the_request Sample.closed_world executeWorkflow_op
           Sample.a_request).
  reflexivity.
Defined.

(** X17. The list operations never reject for lack of permission:
    [getWorkflowsOverview], [getInstances] and [getWorkflowStatuses] never
    record a denial (no audit event with stage [authorization]), whatever
    the permission service answers. *)
Theorem list_operations_never_deny
  (E : Collaborators) (op : Operation) (req : HttpRequest) :
  decides op = false ->
  existsb is_authorization_stage (effects (handleRequest E op req)) = false.
Proof.
  intros Hop. habits (dispatch_keeps_habits E op req).
  match goal with
  | H : decides op || _ = true |- _ =>
      rewrite Hop in H; apply negb_true_iff in H; exact H
  end.
Qed.

Lemma list_operations_never_deny_witness :
  existsb is_authorization_stage
    (effects (handleRequest Sample.closed_world getInstances_op
                Sample.a_request)) = false.
Proof.
  apply (@list_operations_never_deny Sample.closed_world getInstances_op
           Sample.a_request).
  reflexivity.
Defined.

(** X18. Where the router-level catch logs.  The audit event
    [genericErrorHandler] is never emitted for the six operations whose
    handler wraps all its work in [try] ([getWorkflowsOverview],
    [getWorkflowStatuses], [getWorkflowInputSchemaById], [getInstances],
    [getInstanceById], [abortWorkflow]); for the other five it is emitted
    only for requests that made no data access at all, that is, when the
    gate step itself failed or denied. *)
Theorem generic_handler_only_for_gate_failures
  (E : Collaborators) (op : Operation) (req : HttpRequest) :
  let t := effects (handleRequest E op req) in
  (gate_outside_try op = false -> existsb is_generic_event t = false)
  /\ (existsb is_generic_event t = true -> existsb is_data_call t = false).
Proof.
  intros t. subst t. habits (dispatch_keeps_habits E op req). split.
  - intros Hop.
    match goal with
    | H : gate_outside_try op || _ = true |- _ =>
        rewrite Hop in H; apply negb_true_iff in H; exact H
    end.
  - intros Hgen.
    match goal with
    | H : negb (existsb is_generic_event _) || _ = true |- _ =>
        rewrite Hgen in H; apply negb_true_iff in H; exact H
    end.
Qed.

(** ** Requests that are turned away *)

(** X19. A denied request gets nothing.  When the handler of a gated
    operation reaches the gate and the gate decides DENY, the request makes
    no mutation and no data access besides the read that resolved what to
    authorize, no answer carries workflow data, and the only answer is the
    error middleware's answer to the [UnauthorizedError]. *)
Theorem denied_request_gets_nothing
  (E : Collaborators) (op : Operation) (req : HttpRequest)
  (perms : list BasicPermission) (d : AuthorizePermissionResponse) :
  gate_candidates E op req = Some perms ->
  outcome (authorize E req perms) = Fulfilled d ->
  result d = DENY ->
  let t := effects (handleRequest E op req) in
  existsb is_guarded_call t = false
  /\ existsb is_mutation t = false
  /\ existsb returns_workflow_data t = false
  /\ filter is_response t
     = [Respond (error_status E UnauthorizedError)
                (body_error UnauthorizedError)].
Proof.
  intros Hgate Hout Hdeny t. subst t.
  match goal with
  | |- ?G =>
      match eval pattern (effects (handleRequest E op req)) in G with
      | ?P _ => change (holds_on P (handleRequest E op req))
      end
  end.
  destruct op; cbn [gate_candidates] in Hgate; try discriminate Hgate.
  all: try (destruct (getInstanceById E _ _) eqn:Hinst in Hgate;
            [|discriminate Hgate]).
  all: injection Hgate as <-; revert Hout Hdeny; unfold_router.
  all: run_paths.
  all: intros Hout Hdeny; unfold holds_on, effects; cbn [snd];
    first [ repeat split; reflexivity
          | discriminate Hout
          | injection Hout as <-;
            first [ cbn [result] in Hdeny; congruence
                  | rewrite Hdeny in *; simpl in *; congruence ] ].
Qed.

Lemma denied_request_gets_nothing_witness :
  let t := effects (handleRequest Sample.closed_world getInstanceById_op
                      Sample.a_request) in
  existsb is_guarded_call t = false
  /\ existsb is_mutation t = false
  /\ existsb returns_workflow_data t = false
  /\ filter is_response t
     = [Respond (error_status Sample.closed_world UnauthorizedError)
                (body_error UnauthorizedError)].
Proof.
  apply (@denied_request_gets_nothing Sample.closed_world getInstanceById_op
           Sample.a_request
           [orchestratorWorkflowPermission;
            orchestratorWorkflowSpecificPermission "wf-X"]
           {| result := DENY |});
    reflexivity.
Defined.

(** X20. A request without credentials gets nothing.  When the credentials
    lookup fails, a request to any operation but [getWorkflowStatuses]
    reaches no permission evaluation, makes no mutation and no data access
    besides a resolving read, and no answer carries workflow data. *)
Theorem unauthenticated_request_gets_nothing
  (E : Collaborators) (op : Operation) (req : HttpRequest) (e : JsError) :
  credentials_of E req = Rejected e ->
  op <> getWorkflowStatuses_op ->
  let t := effects (handleRequest E op req) in
  existsb is_permission_evaluation t = false
  /\ existsb is_guarded_call t = false
  /\ existsb is_mutation t = false
  /\ existsb returns_workflow_data t = false.
Proof.
  intros Hcreds Hop t. subst t.
  match goal with
  | |- ?G =>
      match eval pattern (effects (handleRequest E op req)) in G with
      | ?P _ => change (holds_on P (handleRequest E op req))
      end
  end.
  destruct op; try congruence; clear Hop; unfold_router.
  all: run_paths.
  all: unfold holds_on, effects; repeat (simpl; try reuse_path);
    first [ repeat split; reflexivity | congruence ].
Qed.

Lemma unauthenticated_request_gets_nothing_witness :
  let t := effects (handleRequest Variants.anonymous_world abortWorkflow_op
                      Sample.a_request) in
  existsb is_permission_evaluation t = false
  /\ existsb is_guarded_call t = false
  /\ existsb is_mutation t = false
  /\ existsb returns_workflow_data t = false.
Proof.
  apply (@unauthenticated_request_gets_nothing Variants.anonymous_world
           abortWorkflow_op Sample.a_request Variants.anonymous);
    [reflexivity | discriminate].
Defined.

(** ** The input schema handler *)

(** X21. Missing workflow info is an error, not an empty schema.  For an
    authorized [getWorkflowInputSchemaById] request, when the workflow info
    is not found, or is found without a service URL, the handler throws an
    error naming the workflow: the error is audited as a failed completion
    and forwarded once, the definition is never fetched, and the only
    answer is the error middleware's. *)
Theorem missing_workflow_info_is_an_error
  (E : Collaborators) (req : HttpRequest) (d : AuthorizePermissionResponse)
  (msg : string) :
  outcome (authorize E req
             [orchestratorWorkflowPermission;
              orchestratorWorkflowSpecificPermission (params_workflowId req)])
  = Fulfilled d ->
  result d = ALLOW ->
  (fetchWorkflowInfo E (params_workflowId req) = Fulfilled None
   /\ msg = String.append "Failed to fetch workflow info for workflow "
                          (params_workflowId req))
  \/ (exists info,
        fetchWorkflowInfo E (params_workflowId req) = Fulfilled (Some info)
        /\ truthy_string (serviceUrl info) = false
        /\ msg = String.append "Service URL is not defined for workflow "
                               (params_workflowId req)) ->
  let t := effects (handleRequest E getWorkflowInputSchemaById_op req) in
  filter is_next t = [Next (PlainError msg)]
  /\ existsb is_fetchWorkflowDefinition t = false
  /\ existsb is_failed_completion t = true
  /\ filter is_response t
     = [Respond (error_status E (PlainError msg)) (body_error (PlainError msg))].
Proof.
  intros Hout Hallow Hcase t. subst t.
  fold_effects E getWorkflowInputSchemaById_op req.
  destruct Hcase as [[Hinfo ->] | (info & Hinfo & Hurl & ->)];
    revert Hout Hallow; unfold_router;
    repeat (simpl; rewrite ?Hinfo, ?Hurl; try reuse_path; try split_path).
  all: close_authorized Hout Hallow.
Qed.

Lemma missing_workflow_info_is_an_error_witness :
  let E := Variants.with_fetchWorkflowInfo Sample.open_world
             (fun _ => Fulfilled None) in
  let t := effects (handleRequest E getWorkflowInputSchemaById_op
                      Sample.a_request) in
  filter is_next t
  = [Next (PlainError "Failed to fetch workflow info for workflow wf-A")]
  /\ existsb is_fetchWorkflowDefinition t = false
  /\ existsb is_failed_completion t = true
  /\ filter is_response t
     = [Respond 500
          (body_error
             (PlainError "Failed to fetch workflow info for workflow wf-A"))].
Proof.
  apply (@missing_workflow_info_is_an_error
           (Variants.with_fetchWorkflowInfo Sample.open_world
              (fun _ => Fulfilled None))
           Sample.a_request {| result := ALLOW |}
           "Failed to fetch workflow info for workflow wf-A");
    try reflexivity.
  left. split; reflexivity.
Defined.

(** X22. The error for a missing definition does not name the workflow.
    For an authorized request whose workflow info is found with a service
    URL, when no definition is found the handler throws an error whose
    message ends in the placeholder text [${workflowId}] as written, not in
    the workflow id; the error is forwarded once and the input schema is
    never asked for. *)
Theorem missing_definition_message
  (E : Collaborators) (req : HttpRequest) (d : AuthorizePermissionResponse)
  (info : WorkflowInfo) :
  outcome (authorize E req
             [orchestratorWorkflowPermission;
              orchestratorWorkflowSpecificPermission (params_workflowId req)])
  = Fulfilled d ->
  result d = ALLOW ->
  fetchWorkflowInfo E (params_workflowId req) = Fulfilled (Some info) ->
  truthy_string (serviceUrl info) = true ->
  fetchWorkflowDefinition E (params_workflowId req) = Fulfilled None ->
  let t := effects (handleRequest E getWorkflowInputSchemaById_op req) in
  filter is_next t
  = [Next (PlainError
             "Failed to fetch workflow definition for workflow ${workflowId}")]
  /\ existsb is_fetchInstanceVariables t = false
  /\ forallb (fun e => match e with
                       | Call (v2_getWorkflowInputSchemaById _ _) => false
                       | _ => true
                       end) t = true.
Proof.
  intros Hout Hallow Hinfo Hurl Hdef t. subst t.
  fold_effects E getWorkflowInputSchemaById_op req.
  revert Hout Hallow; unfold_router;
    repeat (simpl; rewrite ?Hinfo, ?Hurl, ?Hdef; try reuse_path;
            try split_path).
  all: close_authorized Hout Hallow.
Qed.

Lemma missing_definition_message_witness :
  let E := Variants.with_fetchWorkflowDefinition Sample.open_world
             (fun _ => Fulfilled None) in
  let t := effects (handleRequest E getWorkflowInputSchemaById_op
                      Sample.a_request) in
  filter is_next t
  = [Next (PlainError
             "Failed to fetch workflow definition for workflow ${workflowId}")]
  /\ existsb is_fetchInstanceVariables t = false
  /\ forallb (fun e => match e with
                       | Call (v2_getWorkflowInputSchemaById _ _) => false
                       | _ => true
                       end) t = true.
Proof.
  apply (@missing_definition_message
           (Variants.with_fetchWorkflowDefinition Sample.open_world
              (fun _ => Fulfilled None))
           Sample.a_request {| result := ALLOW |}
           {| serviceUrl := Some "http://wf-a"; info_fields := [] |});
    reflexivity.
Defined.



(** X24. What the input schema answer carries.  For an authorized request
    with a truthy [instanceId], when the workflow info, the definition
    (with a [dataInputSchema]), the instance variables and the input schema
    (with truthy [properties]) are all obtained, the handler answers once,
    200, with the schema and, as [data], the fields picked from the
    workflow data that the input schema service extracts from the instance
    variables; [data] is absent when there are no variables or nothing is
    extracted. *)
Theorem input_schema_with_data
  (E : Collaborators) (req : HttpRequest) (d : AuthorizePermissionResponse)
  (info : WorkflowInfo) (url iid : string) (definition : WorkflowDefinition)
  (variables : option JsonObject) (schema props : JsonValue) :
  outcome (authorize E req
             [orchestratorWorkflowPermission;
              orchestratorWorkflowSpecificPermission (params_workflowId req)])
  = Fulfilled d ->
  result d = ALLOW ->
  fetchWorkflowInfo E (params_workflowId req) = Fulfilled (Some info) ->
  serviceUrl info = Some url ->
  String.eqb url EmptyString = false ->
  fetchWorkflowDefinition E (params_workflowId req)
  = Fulfilled (Some definition) ->
  truthy_opt (dataInputSchema definition) = true ->
  query_instanceId req = Some iid ->
  String.eqb iid EmptyString = false ->
  fetchInstanceVariables E iid = Fulfilled variables ->
  getWorkflowInputSchemaById E (params_workflowId req) url
  = Fulfilled (Some {| inputSchema := Some schema |}) ->
  truthy schema = true ->
  property "properties" schema = Some props ->
  truthy props = true ->
  let t := effects (handleRequest E getWorkflowInputSchemaById_op req) in
  filter is_response t
  = [Respond 200
       (body_inputSchema schema
          (match variables with
           | Some vars =>
               option_map (pick_inputData props) (extractWorkflowData E vars)
           | None => None
           end))]
  /\ filter is_data_call t
     = [Call (orchestratorService_fetchWorkflowInfo (params_workflowId req));
        Call (orchestratorService_fetchWorkflowDefinition
                (params_workflowId req));
        Call (orchestratorService_fetchInstanceVariables iid);
        Call (v2_getWorkflowInputSchemaById (params_workflowId req) url)]
  /\ count is_audit t = 1.
Proof.
  intros Hout Hallow Hinfo Hurl Hne Hdef Hschema Hiid Hine Hvars Hup
    Htruthy Hprops Hptruthy t. subst t.
  revert Hout Hallow; unfold_router;
    repeat (simpl;
            rewrite ?Hinfo, ?Hurl, ?Hne, ?Hdef, ?Hschema, ?Hiid, ?Hine,
              ?Hvars, ?Hup, ?Htruthy, ?Hprops, ?Hptruthy;
            try reuse_path; try split_path).
  all: intros Hout Hallow;
    first [ repeat split; reflexivity
          | discriminate Hout
          | injection Hout as <-;
            first [ cbn [result] in Hallow; congruence
                  | rewrite Hallow in *; simpl in *; congruence ] ].
Qed.

Lemma input_schema_with_data_witness :
  let E :=
    Variants.with_getWorkflowInputSchemaById
      (Sample.world (Sample.policy_service Sample.allow_all)
                    Sample.with_schema)
      (fun _ _ =>
         Fulfilled
           (Some {| inputSchema := Some Variants.schema_with_properties |})) in
  filter is_response
    (effects (handleRequest E getWorkflowInputSchemaById_op Sample.a_request))
  = [Respond 200
       (body_inputSchema Variants.schema_with_properties (Some []))].
Proof.
  intros E.
  apply (@input_schema_with_data E Sample.a_request {| result := ALLOW |}
           {| serviceUrl := Some "http://wf-a"; info_fields := [] |}
           "http://wf-a" "i1" Sample.with_schema (Some [])
           Variants.schema_with_properties
           (JObject [("name", JObject [("type", JString "string")]);
                     ("size", JObject [("type", JString "number")]);
                     ("note", JObject [("type", JString "string")])]));
    reflexivity.
Defined.

(** X25. An empty [instanceId] counts as none.  When the [instanceId]
    query parameter is absent or the empty string, the handler never
    fetches instance variables and never sends [data] with a schema,
    whatever the collaborators answer. *)
Theorem no_instanceId_no_data
  (E : Collaborators) (req : HttpRequest) :
  truthy_string (query_instanceId req) = false ->
  let t := effects (handleRequest E getWorkflowInputSchemaById_op req) in
  existsb is_fetchInstanceVariables t = false
  /\ existsb sends_inputData t = false.
Proof.
  intros Hnone t. subst t.
  fold_effects E getWorkflowInputSchemaById_op req.
  destruct (query_instanceId req) as [iid|] eqn:Hiid; simpl in Hnone;
    unfold_router;
    repeat (simpl; rewrite ?Hiid, ?Hnone; try reuse_path; try split_path).
  all: unfold holds_on, effects; cbn [snd]; split; reflexivity.
Qed.

Lemma no_instanceId_no_data_witness :
  let req :=
    {| req_path := "/v2/workflows/wf-A/inputSchema";
       params_workflowId := "wf-A";
       params_instanceId := EmptyString;
       query_instanceId := Some EmptyString;
       req_headers := JObject [];
       req_query := JObject [];
       req_body := JObject [];
       body_filters := None |} in
  let t := effects (handleRequest Sample.open_world
                      getWorkflowInputSchemaById_op req) in
  existsb is_fetchInstanceVariables t = false
  /\ existsb sends_inputData t = false.
Proof.
  intros req.
  apply (@no_instanceId_no_data Sample.open_world req).
  reflexivity.
Defined.

(** ** The list handlers *)

(** X26. [getInstances] asks the engine for the authorized workflows only.
    When the workflow ids are read and [filterAuthorizedWorkflowIds]
    narrows them to [authorized], the one [v2.getInstances] call of the
    request is made with the request's pagination and filters and with
    exactly [authorized]; no mutation is made. *)
Theorem getInstances_asks_for_authorized
  (E : Collaborators) (req : HttpRequest) (ids authorized : list string) :
  getWorkflowIds E = Fulfilled ids ->
  outcome (filterAuthorizedWorkflowIds E req ids) = Fulfilled authorized ->
  let t := effects (handleRequest E getInstances_op req) in
  filter is_guarded_call t
  = [Call (v2_getInstances (buildPagination E req) (getRequestFilters req)
                           authorized)].
Proof.
  intros Hids Hout t. subst t.
  fold_effects E getInstances_op req.
  revert Hout. unfold_router.
  repeat (simpl; rewrite ?Hids; try reuse_path; try split_path).
  all: intros Hout; unfold holds_on, effects; cbn [snd];
    first [ discriminate Hout
          | injection Hout as <-; reflexivity
          | injection Hout as ->; reflexivity ].
Qed.

Lemma getInstances_asks_for_authorized_witness :
  filter is_guarded_call
    (effects (handleRequest Sample.wfA_world getInstances_op Sample.a_request))
  = [Call (v2_getInstances JNull None ["wf-A"])].
Proof.
  apply (@getInstances_asks_for_authorized Sample.wfA_world Sample.a_request
           ["wf-A"; "wf-B"] ["wf-A"]);
    reflexivity.
Defined.

(** X27. What [getWorkflowsOverview] answers.  If the overview read fails,
    the error is forwarded and no credentials lookup or permission call is
    made; if the filter fails, its error is forwarded and no answer carries
    overviews; otherwise the one answer is 200 with the result of
    [filterAuthorizedWorkflows], and nothing is forwarded. *)
Theorem getWorkflowsOverview_answer
  (E : Collaborators) (req : HttpRequest) :
  let t := effects (handleRequest E getWorkflowsOverview_op req) in
  match getWorkflowsOverview E (buildPagination E req)
          (getRequestFilters req) with
  | Rejected e =>
      filter is_next t = [Next e]
      /\ existsb is_credentials t = false
      /\ existsb is_permission_evaluation t = false
  | Fulfilled result =>
      match outcome (filterAuthorizedWorkflows E req result) with
      | Rejected e =>
          filter is_next t = [Next e]
          /\ filter is_response t
             = [Respond (error_status E e) (body_error e)]
      | Fulfilled workflows =>
          filter is_response t = [Respond 200 (body_overviews workflows)]
          /\ existsb is_next t = false
      end
  end.
Proof.
  intros t. subst t. unfold_router.
  repeat (simpl; try reuse_path; try split_path).
  all: repeat (simpl; try reuse_path); repeat split; reflexivity.
Qed.

(** ** The scaffolder action endpoint *)

Lemma fresh_has_field (k : string) (obj : JsonObject) :
  ~ In k (map fst obj) -> has_field k obj = false.
Proof.
  unfold has_field. induction obj as [|[x y] obj IH]; cbn [get_field map fst];
    intros Hnot; [reflexivity|].
  destruct (String.eqb_spec k x) as [->|Hne].
  - exfalso. apply Hnot. left. reflexivity.
  - apply IH. intros Hin. apply Hnot. right. exact Hin.
Qed.

Lemma set_field_fresh (k : string) (v : JsonValue) (obj : JsonObject) :
  ~ In k (map fst obj) -> set_field k v obj = obj ++ [(k, v)].
Proof.
  induction obj as [|[x y] obj IH]; cbn [set_field map fst app];
    intros Hnot; [reflexivity|].
  destruct (String.eqb_spec k x) as [->|Hne].
  - exfalso. apply Hnot. left. reflexivity.
  - f_equal. apply IH. intros Hin. apply Hnot. right. exact Hin.
Qed.

Lemma fromEntries_distinct (entries : list (string * JsonValue)) :
  forall acc : JsonObject,
    NoDup (map fst (acc ++ entries)) ->
    fold_left (fun obj kv => set_field (fst kv) (snd kv) obj) entries acc
    = acc ++ entries.
Proof.
  induction entries as [|[k v] entries IH]; intros acc Hnd; cbn [fold_left].
  - rewrite app_nil_r. reflexivity.
  - cbn [fst snd]. rewrite set_field_fresh.
    + rewrite IH; rewrite <- app_assoc; [reflexivity | exact Hnd].
    + rewrite map_app in Hnd. cbn [map fst] in Hnd.
      apply NoDup_remove_2 in Hnd. intros Hin. apply Hnd.
      apply in_or_app. left. exact Hin.
Qed.

Lemma NoDup_keys_filter (p : string * JsonValue -> bool)
  (fields : list (string * JsonValue)) :
  NoDup (map fst fields) -> NoDup (map fst (filter p fields)).
Proof.
  induction fields as [|kv fields IH]; cbn [filter map]; intros Hnd;
    [constructor|].
  inversion Hnd as [|? ? Hnot Hrest]; subst.
  destruct (p kv); [|apply IH; exact Hrest].
  cbn [map]. constructor; [|apply IH; exact Hrest].
  intros Hin. apply Hnot. apply in_map_iff in Hin.
  destruct Hin as (x & Hx & Hin). apply filter_In in Hin.
  apply in_map_iff. exists x. split; [exact Hx | apply Hin].
Qed.

Lemma fromEntries_values (P : JsonValue -> Prop)
  (entries : list (string * JsonValue)) :
  forall acc : JsonObject,
    Forall (fun kv => P (snd kv)) acc ->
    Forall (fun kv => P (snd kv)) entries ->
    Forall (fun kv => P (snd kv))
           (fold_left (fun obj kv => set_field (fst kv) (snd kv) obj)
                      entries acc).
Proof.
  induction entries as [|[k v] entries IH]; intros acc Hacc Hall;
    cbn [fold_left]; [exact Hacc|].
  inversion Hall as [|? ? Hv Hrest]; subst. cbn [fst snd] in *.
  apply IH; [|exact Hrest].
  clear IH Hall Hrest. induction acc as [|[a b] acc IHacc]; cbn [set_field].
  - constructor; [exact Hv | constructor].
  - inversion Hacc as [|? ? Hab Hacc']; subst.
    destruct (String.eqb k a).
    + constructor; [exact Hv | exact Hacc'].
    + constructor; [exact Hab | apply IHacc; exact Hacc'].
Qed.

Lemma filteredBody_no_null (body : JsonValue) :
  Forall (fun kv => is_null (snd kv) = false) (filteredBody body).
Proof.
  unfold filteredBody, Object_fromEntries.
  apply (fromEntries_values (fun v => is_null v = false)); [constructor|].
  apply Forall_forall. intros kv Hin. apply filter_In in Hin.
  destruct Hin as [_ Hnn]. apply negb_true_iff. exact Hnn.
Qed.

(** X28. The filtered body of an action request is the body without its
    null fields: for a body object (its keys are distinct), the fields
    whose value is not null are kept as they are, in their order, and the
    others are dropped. *)
Theorem filteredBody_drops_nulls (fields : list (string * JsonValue)) :
  NoDup (map fst fields) ->
  filteredBody (JObject fields)
  = filter (fun kv => negb (is_null (snd kv))) fields.
Proof.
  intros Hnd. unfold filteredBody, Object_fromEntries, Object_entries.
  rewrite fromEntries_distinct; [reflexivity|].
  cbn [app]. apply NoDup_keys_filter. exact Hnd.
Qed.

Lemma filteredBody_drops_nulls_witness :
  filteredBody (JObject [("repo", JString "demo"); ("owner", JNull);
                         ("private", JBool false); ("tags", JNull)])
  = [("repo", JString "demo"); ("private", JBool false)].
Proof.
  apply (@filteredBody_drops_nulls
           [("repo", JString "demo"); ("owner", JNull);
            ("private", JBool false); ("tags", JNull)]).
  repeat constructor; cbn; intuition discriminate.
Defined.

(** X29. The action endpoint.  The scaffolder action is executed with the
    route's action id, the [kogitoprocinstanceid] header and an input that
    holds no null value; if it succeeds the answer is 200 with its result;
    if it fails the handler is rejected with that error, sends no answer
    and logs nothing beyond the start event (there is no [catch]). *)
Theorem post_action_behaviour (X : ExternalServices) (req : HttpRequest) :
  let t := snd (post_action X req) in
  (forall a i input,
     In (ExecuteAction a i input) t ->
     a = params_actionId X req
     /\ i = req_header X req "kogitoprocinstanceid"
     /\ Forall (fun kv => is_null (snd kv) = false) input)
  /\ length (filter is_external_audit t) = 1
  /\ match scaffolderService_executeAction X (params_actionId X req)
             (req_header X req "kogitoprocinstanceid")
             (filteredBody (req_body req)) with
     | Fulfilled result =>
         fst (post_action X req) = Fulfilled tt
         /\ filter is_external_response t = [ExternalRespond 200 result]
     | Rejected e =>
         fst (post_action X req) = Rejected e
         /\ filter is_external_response t = []
     end.
Proof.
  unfold post_action. cbv zeta.
  destruct (scaffolderService_executeAction X _ _ _) as [result|e];
    cbn [fst snd].
  - split; [|split; [reflexivity | split; reflexivity]].
    intros a i input [Hin | [Hin | [Hin | []]]]; try discriminate Hin.
    injection Hin as <- <- <-.
    split; [reflexivity | split; [reflexivity | apply filteredBody_no_null]].
  - split; [|split; [reflexivity | split; reflexivity]].
    intros a i input [Hin | [Hin | []]]; try discriminate Hin.
    injection Hin as <- <- <-.
    split; [reflexivity | split; [reflexivity | apply filteredBody_no_null]].
Qed.
